(** * alt_arc4random: the arc4 generator of dnscrypt-proxy

    A shallow embedding of [src/dnscrypt-proxy/alt_arc4random.c] and the
    properties its specification states about it.

    Conventions.  C integers are [Z]; every conversion to [uint8_t] or
    [uint32_t] that the C code performs is written out ([u8], [u32]).  The
    table [rs.s] is a [list Z] read with [!!!] and written with [<[_:=_]>].
    The process-wide statics are the record [State]; what the operating
    system contributes (process id, devices, descriptors, the bytes of the
    entropy device) is the record [World], threaded through every function
    that performs a system call.  A C function that may call [abort()] or
    run into undefined behaviour returns a [result].  The counter
    [alt_arc4_count] is an [int]: between two public calls it lies in
    [0, 1600000] (see [inv]) and inside a call it is never below -4, so its
    arithmetic is written without wrap-around. *)

From Stdlib Require Import ZArith Lia.
From stdpp Require Import base list strings.

Local Open Scope Z_scope.

(** ** Results of a run *)

Inductive fault : Type :=
| Aborted       (* abort() was called *)
| DivByZero     (* the right operand of % is zero *)
| OutOfBounds.  (* a buffer was read or written past its end *)

Inductive result (A : Type) : Type :=
| Ok (a : A)
| Fault (f : fault)
| NoFuel.       (* the model's loop bound was reached: not a C behaviour *)

Arguments Ok {A} a.
Arguments Fault {A} f.
Arguments NoFuel {A}.

Definition bind {A B : Type} (m : result A) (k : A -> result B) : result B :=
  match m with
  | Ok a => k a
  | Fault f => Fault f
  | NoFuel => NoFuel
  end.

Notation "'bnd' x <~ m 'in' k" := (bind m (fun x => k))
  (at level 10, x name, m at level 100, k at level 200).
Notation "'bnd' ' pat <~ m 'in' k" := (bind m (fun x => match x with pat => k end))
  (at level 10, pat pattern, m at level 100, k at level 200).

(** [for (n = 0; n < 256; n++) body] over a list of the values of [n]. *)
Fixpoint for_each {A B : Type} (body : B -> A -> result A) (ns : list B) (a : A)
  : result A :=
  match ns with
  | [] => Ok a
  | n :: ns' => bnd a' <~ body n a in for_each body ns' a'
  end.

(** ** Machine integers *)

Definition u8 (x : Z) : Z := x mod 256.
Definition u32 (x : Z) : Z := x mod 0x100000000.
(** [~x] on a [uint32_t]. *)
Definition u32_not (x : Z) : Z := Z.land (Z.lnot x) 0xffffffff.

Definition is_u8 (x : Z) : Prop := 0 <= x < 256.
Definition is_u32 (x : Z) : Prop := 0 <= x < 0x100000000.

(** ** The generator's state *)

(** [struct alt_arc4_stream] *)
Record alt_arc4_stream : Type := {
  as_i : Z;
  as_j : Z;
  as_s : list Z
}.

(** The file's static variables. *)
Record State : Type := {
  rs_initialized : bool;
  rs : alt_arc4_stream;
  alt_arc4_stir_pid : Z;
  alt_arc4_count : Z;
  random_data_source_fd : Z
}.

(** Static storage is zero-initialised, except for the descriptor. *)
Definition fresh : State := {|
  rs_initialized := false;
  rs := {| as_i := 0; as_j := 0; as_s := replicate 256 0 |};
  alt_arc4_stir_pid := 0;
  alt_arc4_count := 0;
  random_data_source_fd := -1
|}.

Definition set_rs (r : alt_arc4_stream) (st : State) : State :=
  {| rs_initialized := rs_initialized st; rs := r;
     alt_arc4_stir_pid := alt_arc4_stir_pid st;
     alt_arc4_count := alt_arc4_count st;
     random_data_source_fd := random_data_source_fd st |}.

Definition set_initialized (b : bool) (st : State) : State :=
  {| rs_initialized := b; rs := rs st;
     alt_arc4_stir_pid := alt_arc4_stir_pid st;
     alt_arc4_count := alt_arc4_count st;
     random_data_source_fd := random_data_source_fd st |}.

Definition set_stir_pid (p : Z) (st : State) : State :=
  {| rs_initialized := rs_initialized st; rs := rs st;
     alt_arc4_stir_pid := p;
     alt_arc4_count := alt_arc4_count st;
     random_data_source_fd := random_data_source_fd st |}.

Definition set_count (c : Z) (st : State) : State :=
  {| rs_initialized := rs_initialized st; rs := rs st;
     alt_arc4_stir_pid := alt_arc4_stir_pid st;
     alt_arc4_count := c;
     random_data_source_fd := random_data_source_fd st |}.

Definition set_fd (fd : Z) (st : State) : State :=
  {| rs_initialized := rs_initialized st; rs := rs st;
     alt_arc4_stir_pid := alt_arc4_stir_pid st;
     alt_arc4_count := alt_arc4_count st;
     random_data_source_fd := fd |}.

(** ** The operating system *)

Inductive event : Type :=
| EvOpen (path : string) (fd : Z)      (* open(path, O_RDONLY) returned fd *)
| EvRead (fd : Z) (n : nat) (got : nat) (* safe_read(fd, _, n) delivered got bytes *)
| EvClose (fd : Z) (ret : Z).          (* close(fd) returned ret *)

Record World : Type := {
  w_pid : Z;                 (* what getpid() returns *)
  w_access : string -> bool; (* access(path, F_OK | R_OK) == 0 *)
  w_open : string -> Z;      (* the descriptor open() returns, -1 on failure *)
  w_close_ok : Z -> bool;    (* whether close() of an open descriptor succeeds *)
  w_fds : list Z;            (* the descriptors that are open *)
  w_entropy : nat -> Z;      (* the byte stream of the entropy device *)
  w_pos : nat;               (* how much of it has been consumed *)
  w_stack : nat -> Z;        (* what automatic storage holds before it is written *)
  w_trace : list event       (* the system calls made so far, oldest first *)
}.

Definition log (e : event) (w : World) : World :=
  {| w_pid := w_pid w; w_access := w_access w; w_open := w_open w;
     w_close_ok := w_close_ok w; w_fds := w_fds w;
     w_entropy := w_entropy w; w_pos := w_pos w; w_stack := w_stack w;
     w_trace := w_trace w ++ [e] |}.

Definition set_fds (fds : list Z) (w : World) : World :=
  {| w_pid := w_pid w; w_access := w_access w; w_open := w_open w;
     w_close_ok := w_close_ok w; w_fds := fds;
     w_entropy := w_entropy w; w_pos := w_pos w; w_stack := w_stack w;
     w_trace := w_trace w |}.

Definition set_pos (p : nat) (w : World) : World :=
  {| w_pid := w_pid w; w_access := w_access w; w_open := w_open w;
     w_close_ok := w_close_ok w; w_fds := w_fds w;
     w_entropy := w_entropy w; w_pos := p; w_stack := w_stack w;
     w_trace := w_trace w |}.

Definition set_pid (p : Z) (w : World) : World :=
  {| w_pid := p; w_access := w_access w; w_open := w_open w;
     w_close_ok := w_close_ok w; w_fds := w_fds w;
     w_entropy := w_entropy w; w_pos := w_pos w; w_stack := w_stack w;
     w_trace := w_trace w |}.

(** After chroot() no device path can be reached any more. *)
Definition chroot (w : World) : World :=
  {| w_pid := w_pid w; w_access := λ _, false; w_open := λ _, -1;
     w_close_ok := w_close_ok w; w_fds := w_fds w;
     w_entropy := w_entropy w; w_pos := w_pos w; w_stack := w_stack w;
     w_trace := w_trace w |}.

Definition fd_open (w : World) (fd : Z) : bool := bool_decide (fd ∈ w_fds w).

Definition os_getpid (w : World) : Z := w_pid w.

Definition os_open (w : World) (path : string) : World * Z :=
  let fd := w_open w path in
  if fd =? -1 then (log (EvOpen path (-1)) w, -1)
  else (log (EvOpen path fd) (set_fds (fd :: w_fds w) w), fd).

Definition os_close (w : World) (fd : Z) : World * Z :=
  if fd_open w fd && w_close_ok w fd
  then (log (EvClose fd 0) (set_fds (filter (λ x, x ≠ fd) (w_fds w)) w), 0)
  else (log (EvClose fd (-1)) w, -1).

(** Modelled from the spec: [safe_read] of safe_rw.h, whose code is not part
    of the source tree.  The spec calls it the retrying reader: short and
    interrupted reads are retried, so that a request for [n] bytes on the open
    entropy device fills the first [n] bytes of the buffer with the next [n]
    bytes of the device.  On a descriptor that is not open the read fails and
    the buffer keeps what it held. *)
Definition safe_read (w : World) (fd : Z) (buf : list Z) (n : nat)
  : World * list Z :=
  if fd_open w fd
  then (log (EvRead fd n n) (set_pos (w_pos w + n)%nat w),
        map (w_entropy w) (seq (w_pos w) n) ++ drop n buf)
  else (log (EvRead fd n 0) w, buf).

(** ** The device *)

Definition devices : list string :=
  ["/dev/arandom"; "/dev/urandom"; "/dev/random"]%string.

(** The [do ... while] of [alt_arc4_random_dev_open] over [devices]. *)
Fixpoint dev_open_loop (ds : list string) (w : World) : World * Z :=
  match ds with
  | [] => (w, -1)
  | d :: ds' => if w_access w d then os_open w d else dev_open_loop ds' w
  end.

Definition alt_arc4_random_dev_open (w : World) : World * Z :=
  dev_open_loop devices w.

(** ** The keystream *)

Definition rd (s : list Z) (k : Z) : Z := s !!! Z.to_nat k.
Definition wr (s : list Z) (k : Z) (v : Z) : list Z := <[Z.to_nat k := v]> s.

Definition alt_arc4_init (w : World) (st : State) : result (World * State) :=
  let s := fold_left (λ s n, wr s n (u8 n)) (seqZ 0 256) (as_s (rs st)) in
  let st := set_rs {| as_i := 0; as_j := 0; as_s := s |} st in
  if negb (random_data_source_fd st =? -1) then Ok (w, st)
  else
    let '(w, fd) := alt_arc4_random_dev_open w in
    let st := set_fd fd st in
    if fd =? -1 then Fault Aborted else Ok (w, st).

(** One round of the loop of [alt_arc4_addrandom]. *)
Definition addrandom_step (dat : list Z) (datlen : Z) (n : Z)
  (r : alt_arc4_stream) : result alt_arc4_stream :=
  let i := u8 (as_i r + 1) in
  let si := rd (as_s r) i in
  if datlen =? 0 then Fault DivByZero
  else
    match dat !! Z.to_nat (Z.rem n datlen) with
    | None => Fault OutOfBounds
    | Some d =>
        let j := u8 (as_j r + si + d) in
        let s := wr (as_s r) i (rd (as_s r) j) in
        let s := wr s j si in
        Ok {| as_i := i; as_j := j; as_s := s |}
    end.

Definition alt_arc4_addrandom (dat : list Z) (datlen : Z)
  (r : alt_arc4_stream) : result alt_arc4_stream :=
  let r := {| as_i := u8 (as_i r - 1); as_j := as_j r; as_s := as_s r |} in
  bnd r <~ for_each (addrandom_step dat datlen) (seqZ 0 256) r in
  Ok {| as_i := as_i r; as_j := as_i r; as_s := as_s r |}.

Definition alt_arc4_getbyte (r : alt_arc4_stream) : Z * alt_arc4_stream :=
  let i := u8 (as_i r + 1) in
  let si := rd (as_s r) i in
  let j := u8 (as_j r + si) in
  let sj := rd (as_s r) j in
  let s := wr (as_s r) i sj in
  let s := wr s j si in
  (rd s (Z.land (si + sj) 0xff), {| as_i := i; as_j := j; as_s := s |}).

Definition alt_arc4_getword (r : alt_arc4_stream) : Z * alt_arc4_stream :=
  let '(b, r) := alt_arc4_getbyte r in
  let val := u32 (Z.shiftl b 24) in
  let '(b, r) := alt_arc4_getbyte r in
  let val := Z.lor val (u32 (Z.shiftl b 16)) in
  let '(b, r) := alt_arc4_getbyte r in
  let val := Z.lor val (u32 (Z.shiftl b 8)) in
  let '(b, r) := alt_arc4_getbyte r in
  let val := Z.lor val b in
  (val, r).

(** [for (i = 0; i < 256; i++) (void)alt_arc4_getbyte();] with its bound as
    a parameter. *)
Fixpoint discard (k : nat) (r : alt_arc4_stream) : alt_arc4_stream :=
  match k with
  | O => r
  | S k' => discard k' (snd (alt_arc4_getbyte r))
  end.

Definition alt_arc4_stir (w : World) (st : State) : result (World * State) :=
  bnd '(w, st) <~ (if negb (rs_initialized st)
               then bnd '(w, st) <~ alt_arc4_init w st in
                    Ok (w, set_initialized true st)
               else Ok (w, st)) in
  let rnd := map (w_stack w) (seq 0 128) in
  let '(w, rnd) := safe_read w (random_data_source_fd st) rnd 128 in
  bnd r <~ alt_arc4_addrandom rnd 128 (rs st) in
  let st := set_rs (discard 256 r) st in
  Ok (w, set_count 1600000 st).

Definition stir_needed (pid : Z) (st : State) : bool :=
  (alt_arc4_count st <=? 0) || negb (rs_initialized st)
  || negb (alt_arc4_stir_pid st =? pid).

Definition alt_arc4_stir_if_needed (w : World) (st : State)
  : result (World * State) :=
  let pid := os_getpid w in
  if stir_needed pid st
  then alt_arc4_stir w (set_stir_pid pid st)
  else Ok (w, st).

(** ** The public functions *)

Definition alt_arc4random_stir (w : World) (st : State)
  : result (World * State) :=
  alt_arc4_stir w st.

Definition alt_arc4random_close (w : World) (st : State)
  : World * State * Z :=
  let ret := -1 in
  if negb (random_data_source_fd st =? -1)
  then
    let '(w', c) := os_close w (random_data_source_fd st) in
    if c =? 0 then (w', set_fd (-1) st, 0) else (w', st, ret)
  else (w, st, ret).

(** The [__OpenBSD__] build has only this. *)
Definition alt_arc4random_close_openbsd : Z := 0.

Definition alt_arc4random_addrandom (dat : list Z) (datlen : Z)
  (w : World) (st : State) : result (World * State) :=
  bnd '(w, st) <~ (if negb (rs_initialized st) then alt_arc4_stir w st
               else Ok (w, st)) in
  bnd r <~ alt_arc4_addrandom dat datlen (rs st) in
  Ok (w, set_rs r st).

Definition alt_arc4random (w : World) (st : State)
  : result (World * State * Z) :=
  let st := set_count (alt_arc4_count st - 4) st in
  bnd '(w, st) <~ alt_arc4_stir_if_needed w st in
  let '(val, r) := alt_arc4_getword (rs st) in
  Ok (w, set_rs r st, val).

(** The [while (n--)] of [alt_arc4random_buf]: [n] is the value tested, the
    body runs with [n - 1].  The caller's buffer is a list of its bytes; a
    store past its end is undefined in C. *)
Fixpoint buf_loop (n : nat) (w : World) (st : State) (buf : list Z)
  : result (World * State * list Z) :=
  match n with
  | O => Ok (w, st, buf)
  | S n' =>
      let st := set_count (alt_arc4_count st - 1) st in
      bnd '(w, st) <~ (if alt_arc4_count st <=? 0 then alt_arc4_stir w st
                   else Ok (w, st)) in
      let '(b, r) := alt_arc4_getbyte (rs st) in
      if bool_decide (n' < length buf)%nat
      then buf_loop n' w (set_rs r st) (<[n' := b]> buf)
      else Fault OutOfBounds
  end.

Definition alt_arc4random_buf (buf : list Z) (n : nat) (w : World) (st : State)
  : result (World * State * list Z) :=
  bnd '(w, st) <~ alt_arc4_stir_if_needed w st in
  buf_loop n w st buf.

(** The value of [min], for the two arms of [#if (ULONG_MAX > 0xffffffffUL)]. *)
Definition uniform_min (wide : bool) (upper_bound : Z) : Z :=
  if wide then u32 (0x100000000 mod upper_bound)
  else if 0x80000000 <? upper_bound then u32 (1 + u32_not upper_bound)
  else u32 (u32 (0xffffffff - u32 (upper_bound * 2)) + 1) mod upper_bound.

(** The [for (;;)] of [alt_arc4random_uniform], at most [fuel] rounds. *)
Fixpoint uniform_loop (fuel : nat) (min : Z) (w : World) (st : State)
  : result (World * State * Z) :=
  match fuel with
  | O => NoFuel
  | S fuel' =>
      bnd '(w, st, r) <~ alt_arc4random w st in
      if min <=? r then Ok (w, st, r) else uniform_loop fuel' min w st
  end.

Definition alt_arc4random_uniform (wide : bool) (fuel : nat) (upper_bound : Z)
  (w : World) (st : State) : result (World * State * Z) :=
  if upper_bound <? 2 then Ok (w, st, 0)
  else
    let min := uniform_min wide upper_bound in
    bnd '(w, st, r) <~ uniform_loop fuel min w st in
    Ok (w, st, r mod upper_bound).

(** ** Sequences of public calls *)

Inductive call : Type :=
| Stir
| Addrandom (dat : list Z) (datlen : Z)
| Random
| Buf (buf : list Z) (n : nat)
| Uniform (wide : bool) (fuel : nat) (upper_bound : Z)
| Close
| Env (f : World -> World).  (* the environment moves: fork, chroot, ... *)

(** One call, with what it hands back to the caller. *)
Definition do_call (c : call) (w : World) (st : State)
  : result (World * State * list Z) :=
  match c with
  | Stir => bnd '(w, st) <~ alt_arc4random_stir w st in Ok (w, st, [])
  | Addrandom dat datlen =>
      bnd '(w, st) <~ alt_arc4random_addrandom dat datlen w st in Ok (w, st, [])
  | Random => bnd '(w, st, v) <~ alt_arc4random w st in Ok (w, st, [v])
  | Buf buf n => alt_arc4random_buf buf n w st
  | Uniform wide fuel u =>
      bnd '(w, st, v) <~ alt_arc4random_uniform wide fuel u w st in Ok (w, st, [v])
  | Close => let '(w, st, ret) := alt_arc4random_close w st in Ok (w, st, [ret])
  | Env f => Ok (f w, st, [])
  end.

(** A sequence of calls from a given state; the last call's value is kept. *)
Fixpoint run (cs : list call) (w : World) (st : State) (last : list Z)
  : result (World * State * list Z) :=
  match cs with
  | [] => Ok (w, st, last)
  | c :: cs' => bnd '(w, st, out) <~ do_call c w st in run cs' w st out
  end.

(** A test double for the operating system: process 1234, only /dev/urandom
    present, opened as descriptor 3, delivering zero bytes. *)
Definition mock : World := {|
  w_pid := 1234;
  w_access := λ p, String.eqb p "/dev/urandom";
  w_open := λ _, 3;
  w_close_ok := λ _, true;
  w_fds := [];
  w_entropy := λ _, 0;
  w_pos := 0%nat;
  w_stack := λ _, 170;
  w_trace := []
|}.

(** ** Well-formed states *)

(** The two stores [rs.s[rs.i] = rs.s[rs.j]; rs.s[rs.j] = si;]. *)
Definition swap (s : list Z) (a b : Z) : list Z :=
  wr (wr s a (rd s b)) b (rd s a).

(** The table holds every value of 0..255 exactly once. *)
Definition table_ok (s : list Z) : Prop := s ≡ₚ seqZ 0 256.

(** The indices are 8-bit values and the table has its 256 cells. *)
Definition stream_ok (r : alt_arc4_stream) : Prop :=
  is_u8 (as_i r) ∧ is_u8 (as_j r) ∧ length (as_s r) = 256%nat.

Definition keyed (r : alt_arc4_stream) : Prop :=
  stream_ok r ∧ table_ok (as_s r).

(** The extraction step in the words of the specification: increment [i];
    let [si = s[i]]; add [si] to [j]; let [sj = s[j]]; swap [s[i]] and
    [s[j]]; return [s[(si + sj) mod 256]]. *)
Definition getbyte_spec (r : alt_arc4_stream) : Z * alt_arc4_stream :=
  let i := (as_i r + 1) mod 256 in
  let si := rd (as_s r) i in
  let j := (as_j r + si) mod 256 in
  let sj := rd (as_s r) j in
  let s := swap (as_s r) i j in
  (rd s ((si + sj) mod 256), {| as_i := i; as_j := j; as_s := s |}).

(** Four bytes, the first one most significant. *)
Definition big_endian (b0 b1 b2 b3 : Z) : Z :=
  b0 * 2 ^ 24 + b1 * 2 ^ 16 + b2 * 2 ^ 8 + b3.

(** The [k]-th word that successive calls of [alt_arc4random] produce,
    counting from 0. *)
Fixpoint nth_draw (k : nat) (w : World) (st : State)
  : result (World * State * Z) :=
  match k with
  | O => alt_arc4random w st
  | S k' => bnd '(w, st, _) <~ alt_arc4random w st in nth_draw k' w st
  end.

(** What holds of the statics between two public calls. *)
Definition inv (st : State) : Prop :=
  stream_ok (rs st) ∧
  (rs_initialized st = true -> table_ok (as_s (rs st))) ∧
  0 <= alt_arc4_count st <= 1600000.

(** ** Parts of a reseed, and counting reads *)

(** The part of [inv] that does not speak of the counter. *)
Definition core (st : State) : Prop :=
  stream_ok (rs st) ∧ (rs_initialized st = true -> table_ok (as_s (rs st))).

(** The first part of [alt_arc4_stir]: prime the generator unless it is. *)
Definition prime (w : World) (st : State) : result (World * State) :=
  if negb (rs_initialized st)
  then bnd '(w, st) <~ alt_arc4_init w st in Ok (w, set_initialized true st)
  else Ok (w, st).

(** Priming succeeds unless the generator is unprimed, holds no descriptor
    and no device can be opened. *)
Definition can_prime (w : World) (st : State) : bool :=
  rs_initialized st
  || negb (random_data_source_fd st =? -1)
  || negb ((alt_arc4_random_dev_open w).2 =? -1).

Definition is_read (e : event) : bool :=
  match e with
  | EvRead _ _ _ => true
  | _ => false
  end.

(** The number of read requests among the system calls made so far. *)
Definition reads (w : World) : nat := length (filter is_read (w_trace w)).

(** ** Reading off the end of a run *)

Definition final_state (r : result (World * State * list Z)) : State :=
  match r with
  | Ok (_, st, _) => st
  | _ => fresh
  end.

Definition final_world (r : result (World * State * list Z)) : World :=
  match r with
  | Ok (w, _, _) => w
  | _ => mock
  end.

Definition final_out (r : result (World * State * list Z)) : list Z :=
  match r with
  | Ok (_, _, out) => out
  | _ => []
  end.

Definition world_of {A : Type} (r : result (World * A)) : World :=
  match r with
  | Ok (w, _) => w
  | _ => mock
  end.

Definition state_of (r : result (World * State)) : State :=
  match r with
  | Ok (_, st) => st
  | _ => fresh
  end.

(** A run used to exercise the statements below: every public function is
    called, the handle is closed in between and the process forks. *)
Definition sample_calls : list call :=
  [ Random; Buf (replicate 10 0) 10; Close; Addrandom [1; 2; 3] 3;
    Uniform true 8 3; Env (set_pid 4321); Env chroot; Stir; Random ].


(** ** Further notions *)

(** The [k]-th byte of the keystream that starts at [r], counting from 0. *)
Definition keystream (r : alt_arc4_stream) (k : nat) : Z :=
  (alt_arc4_getbyte (discard k r)).1.

(** One extraction step taken back: the stream before the [alt_arc4_getbyte]
    that led to [r']. *)
Definition getbyte_undo (r' : alt_arc4_stream) : alt_arc4_stream :=
  let s := swap (as_s r') (as_i r') (as_j r') in
  {| as_i := u8 (as_i r' - 1);
     as_j := u8 (as_j r' - rd s (as_i r'));
     as_s := s |}.

(** The device that [alt_arc4_random_dev_open] settles on: the first one of
    its list that access() accepts. *)
Definition first_accessible (w : World) : option string :=
  head (filter (λ d, w_access w d = true) devices).

Definition is_open (e : event) : bool :=
  match e with
  | EvOpen _ _ => true
  | _ => false
  end.

(** The number of open() calls among the system calls made so far. *)
Definition opens (w : World) : nat := length (filter is_open (w_trace w)).

(** Calls that leave the stored handle to the generator: anything but
    close(), and moves of the environment that touch neither the open
    descriptors, nor the device's read position, nor the record of calls. *)
Definition keeps_handle (c : call) : Prop :=
  match c with
  | Close => False
  | Env f => ∀ w, w_fds (f w) = w_fds w ∧ w_pos (f w) = w_pos w
                  ∧ w_trace (f w) = w_trace w
  | _ => True
  end.

(** The calls that cannot do without the entropy device on a generator that
    was never primed. *)
Definition needs_entropy (c : call) : bool :=
  match c with
  | Stir | Random | Buf _ _ | Addrandom _ _ => true
  | Uniform _ fuel u => (2 <=? u) && negb (Nat.eqb fuel 0)
  | Close | Env _ => false
  end.

(** What holds of the handle and of the device's use since the world [w0],
    as long as close() is not called: an unprimed generator holds no handle
    and has neither opened nor read anything; a primed one holds an open
    descriptor, opened by the one open() made; and every read has taken 128
    bytes from the device. *)
Definition handle_inv (w0 w : World) (st : State) : Prop :=
  (if rs_initialized st
   then fd_open w (random_data_source_fd st) = true
        ∧ opens w = S (opens w0) ∧ (reads w0 < reads w)%nat
   else random_data_source_fd st = -1
        ∧ opens w = opens w0 ∧ reads w = reads w0) ∧
  (w_pos w + 128 * reads w0 = w_pos w0 + 128 * reads w)%nat.

(** A run in which the process forks and changes its root between calls. *)
Definition fork_chroot_calls : list call :=
  [ Random; Env (set_pid 4321); Random; Env chroot; Stir;
    Buf (replicate 4 0) 4 ].

(** ** The reseed in the words of the specification *)




(** [alt_arc4_random_dev_open] comes back without a descriptor: access()
    accepts no device, or open() fails on the first one it accepts. *)
Definition no_device (w : World) : Prop :=
  match first_accessible w with
  | Some d => w_open w d = -1
  | None => True
  end.

(** A test double where /dev/arandom passes access() but cannot be opened,
    while /dev/urandom could be. *)
Definition arandom_broken : World := {|
  w_pid := 1234;
  w_access := λ p, String.eqb p "/dev/arandom" || String.eqb p "/dev/urandom";
  w_open := λ p, if String.eqb p "/dev/arandom" then -1 else 3;
  w_close_ok := λ _, true;
  w_fds := [];
  w_entropy := λ _, 0;
  w_pos := 0%nat;
  w_stack := λ _, 170;
  w_trace := []
|}.

(** ** Loop equations *)

Lemma for_each_nil {A B : Type} (body : B -> A -> result A) a :
  for_each body [] a = Ok a.
Proof. reflexivity. Qed.

Lemma discard_0 r : discard 0 r = r.
Proof. reflexivity. Qed.

Lemma for_each_cons {A B : Type} (body : B -> A -> result A) n ns a :
  for_each body (n :: ns) a = bind (body n a) (for_each body ns).
Proof. reflexivity. Qed.

Lemma discard_S k r : discard (S k) r = discard k (snd (alt_arc4_getbyte r)).
Proof. reflexivity. Qed.

(** The loops of 256 rounds are unfolded by their equations only. *)
Arguments for_each : simpl never.
Arguments discard : simpl never.
Arguments seqZ : simpl never.
Opaque for_each discard.

(** ** Machine integers: basic facts *)

Lemma u8_is_u8 x : is_u8 (u8 x).
Proof. unfold is_u8, u8. apply Z.mod_pos_bound. lia. Qed.

Lemma u32_is_u32 x : is_u32 (u32 x).
Proof. unfold is_u32, u32. apply Z.mod_pos_bound. lia. Qed.

Lemma u8_id x : is_u8 x -> u8 x = x.
Proof. unfold is_u8, u8. intros H. apply Z.mod_small. lia. Qed.

Lemma u32_id x : is_u32 x -> u32 x = x.
Proof. unfold is_u32, u32. intros H. apply Z.mod_small. lia. Qed.

Lemma land_0xff x : Z.land x 0xff = x mod 256.
Proof. change 0xff with (Z.ones 8). rewrite Z.land_ones by lia. reflexivity. Qed.

Lemma u32_not_spec x : is_u32 x -> u32_not x = 0xffffffff - x.
Proof.
  unfold is_u32, u32_not. intros H.
  change 0xffffffff with (Z.ones 32) at 1. rewrite Z.land_ones by lia.
  unfold Z.lnot, Z.pred. change (2 ^ 32) with 0x100000000.
  replace (- x + -1) with (0xffffffff - x + -1 * 0x100000000) by lia.
  rewrite Z.mod_add by lia. apply Z.mod_small. lia.
Qed.

(** ** The table as an array *)

Lemma length_wr s k v : length (wr s k v) = length s.
Proof. apply length_insert. Qed.

Lemma rd_wr_eq s k v : (Z.to_nat k < length s)%nat -> rd (wr s k v) k = v.
Proof. intros H. unfold rd, wr. by rewrite list_lookup_total_insert_eq. Qed.

Lemma rd_lookup s k : (Z.to_nat k < length s)%nat -> s !! Z.to_nat k = Some (rd s k).
Proof. intros H. unfold rd. by apply list_lookup_lookup_total_lt. Qed.

(** Overwriting a cell moves its old content out and the new one in. *)
Lemma insert_cons_Permutation (l : list Z) (a : nat) (x y : Z) :
  l !! a = Some x -> x :: <[a := y]> l ≡ₚ y :: l.
Proof.
  revert a. induction l as [|h t IH]; intros [|a] Ha; simplify_eq/=.
  - apply Permutation_swap.
  - rewrite (Permutation_swap h x), (IH _ Ha). apply Permutation_swap.
Qed.

(** Exchanging two cells leaves a permutation of the list. *)
Lemma exchange_Permutation (l : list Z) (a b : nat) (x y : Z) :
  l !! a = Some x -> l !! b = Some y ->
  <[b := x]> (<[a := y]> l) ≡ₚ l.
Proof.
  revert a b. induction l as [|h t IH]; intros [|a] [|b] Ha Hb; simplify_eq/=.
  - reflexivity.
  - by apply insert_cons_Permutation.
  - by apply insert_cons_Permutation.
  - f_equiv. by apply IH.
Qed.

Lemma swap_Permutation s a b :
  (Z.to_nat a < length s)%nat -> (Z.to_nat b < length s)%nat ->
  swap s a b ≡ₚ s.
Proof.
  intros Ha Hb. unfold swap, wr.
  apply exchange_Permutation; by apply rd_lookup.
Qed.

Lemma length_swap s a b : length (swap s a b) = length s.
Proof. unfold swap. by rewrite !length_wr. Qed.

(** ** The table stays a permutation *)

Lemma table_ok_length s : table_ok s -> length s = 256%nat.
Proof. unfold table_ok. intros H. by rewrite H, length_seqZ. Qed.

Lemma table_ok_rd s k : table_ok s -> is_u8 k -> is_u8 (rd s k).
Proof.
  intros H Hk. pose proof (table_ok_length s H) as Hl.
  assert (rd s k ∈ s) as Hin.
  { apply list_elem_of_lookup. exists (Z.to_nat k). apply rd_lookup.
    unfold is_u8 in Hk. lia. }
  revert Hin. generalize (rd s k). intros x Hin.
  unfold table_ok in H. rewrite H in Hin.
  apply elem_of_seqZ in Hin. unfold is_u8. lia.
Qed.

Lemma table_ok_swap s a b : table_ok s -> is_u8 a -> is_u8 b -> table_ok (swap s a b).
Proof.
  intros H Ha Hb. pose proof (table_ok_length s H) as Hl.
  unfold is_u8 in *. unfold table_ok. rewrite swap_Permutation by lia. exact H.
Qed.

(** [alt_arc4_init]'s loop writes the identity table. *)
Lemma init_loop_prefix (s : list Z) (k : nat) :
  (k <= length s)%nat -> (k <= 256)%nat ->
  fold_left (λ s n, wr s n (u8 n)) (seqZ 0 (Z.of_nat k)) s
  = seqZ 0 (Z.of_nat k) ++ drop k s.
Proof.
  induction k as [|k IH]; intros Hk Hk'.
  - by rewrite drop_0.
  - rewrite seqZ_S, fold_left_app, IH by lia. simpl.
    unfold wr. rewrite Z.add_0_l, Nat2Z.id, u8_id by (unfold is_u8; lia).
    destruct (lookup_lt_is_Some_2 s k ltac:(lia)) as [x Hx].
    rewrite (drop_S s x k Hx).
    rewrite insert_app_r_alt by (rewrite length_seqZ; lia).
    rewrite length_seqZ, Nat2Z.id, Nat.sub_diag. simpl.
    by rewrite <- app_assoc.
Qed.

Lemma init_loop_identity (s : list Z) :
  length s = 256%nat ->
  fold_left (λ s n, wr s n (u8 n)) (seqZ 0 256) s = seqZ 0 256.
Proof.
  intros H. change 256 with (Z.of_nat 256).
  rewrite init_loop_prefix by lia.
  rewrite drop_ge by lia. apply app_nil_r.
Qed.

(** ** One keystream step *)

Lemma getbyte_swap r :
  as_s (snd (alt_arc4_getbyte r))
  = swap (as_s r) (as_i (snd (alt_arc4_getbyte r))) (as_j (snd (alt_arc4_getbyte r))).
Proof. reflexivity. Qed.

Lemma getbyte_refines r : alt_arc4_getbyte r = getbyte_spec r.
Proof.
  unfold alt_arc4_getbyte, getbyte_spec, swap, u8. by rewrite land_0xff.
Qed.

Lemma getbyte_indices r :
  is_u8 (as_i (snd (alt_arc4_getbyte r))) ∧ is_u8 (as_j (snd (alt_arc4_getbyte r))).
Proof. split; apply u8_is_u8. Qed.

Lemma getbyte_stream_ok r : stream_ok r -> stream_ok (snd (alt_arc4_getbyte r)).
Proof.
  intros (Hi & Hj & Hl). unfold stream_ok. simpl.
  rewrite !length_wr. auto using u8_is_u8.
Qed.

Lemma getbyte_table_ok r :
  table_ok (as_s r) -> table_ok (as_s (snd (alt_arc4_getbyte r))).
Proof.
  intros H. rewrite getbyte_swap.
  apply table_ok_swap; [exact H | simpl; apply u8_is_u8 ..].
Qed.

Lemma getbyte_keyed r : keyed r -> keyed (snd (alt_arc4_getbyte r)).
Proof. intros [? ?]. split; auto using getbyte_stream_ok, getbyte_table_ok. Qed.

Lemma getbyte_is_u8 r : keyed r -> is_u8 (fst (alt_arc4_getbyte r)).
Proof.
  intros Hk. pose proof (getbyte_keyed r Hk) as [_ Ht]. simpl in *.
  apply table_ok_rd; [exact Ht|]. rewrite land_0xff. apply u8_is_u8.
Qed.

(** [alt_arc4_getword] in terms of the four calls it makes. *)
Lemma getword_unfold r :
  alt_arc4_getword r =
  let p0 := alt_arc4_getbyte r in
  let p1 := alt_arc4_getbyte (snd p0) in
  let p2 := alt_arc4_getbyte (snd p1) in
  let p3 := alt_arc4_getbyte (snd p2) in
  (Z.lor (Z.lor (Z.lor (u32 (Z.shiftl (fst p0) 24)) (u32 (Z.shiftl (fst p1) 16)))
                (u32 (Z.shiftl (fst p2) 8)))
         (fst p3),
   snd p3).
Proof.
  unfold alt_arc4_getword. generalize alt_arc4_getbyte as f. intros f.
  destruct (f r) as [b0 r0]. cbn [fst snd].
  destruct (f r0) as [b1 r1]. cbn [fst snd].
  destruct (f r1) as [b2 r2]. cbn [fst snd].
  destruct (f r2) as [b3 r3]. reflexivity.
Qed.

Lemma buf_loop_S n w st buf :
  buf_loop (S n) w st buf =
  bnd '(w, st) <~ (if alt_arc4_count st - 1 <=? 0
                   then alt_arc4_stir w (set_count (alt_arc4_count st - 1) st)
                   else Ok (w, set_count (alt_arc4_count st - 1) st))
  in if bool_decide (n < length buf)%nat
     then buf_loop n w (set_rs (snd (alt_arc4_getbyte (rs st))) st)
            (<[n := fst (alt_arc4_getbyte (rs st))]> buf)
     else Fault OutOfBounds.
Proof. reflexivity. Qed.

Arguments alt_arc4_getbyte : simpl never.
Arguments alt_arc4_getword : simpl never.
Arguments buf_loop : simpl never.
Opaque alt_arc4_getbyte.

Lemma getword_stream r : snd (alt_arc4_getword r) = discard 4 r.
Proof. rewrite getword_unfold. by rewrite !discard_S, discard_0. Qed.


Lemma discard_stream_ok k r : stream_ok r -> stream_ok (discard k r).
Proof.
  revert r. induction k as [|k IH]; intros r H; [exact H|].
  rewrite discard_S. apply IH, getbyte_stream_ok, H.
Qed.

Lemma discard_table_ok k r : table_ok (as_s r) -> table_ok (as_s (discard k r)).
Proof.
  revert r. induction k as [|k IH]; intros r H; [exact H|].
  rewrite discard_S. apply IH, getbyte_table_ok, H.
Qed.

(** ** Reasoning about [result] *)


Lemma bind_Ok {A B : Type} (m : result A) (k : A -> result B) (b : B) :
  bind m k = Ok b -> ∃ a, m = Ok a ∧ k a = Ok b.
Proof. destruct m as [a| |]; simpl; intros H; [eauto | discriminate ..]. Qed.

Lemma Ok_inj {A : Type} (a a' : A) : Ok a = Ok a' -> a = a'.
Proof. intros H. by inversion H. Qed.

Lemma Ok_pair_inj {A B : Type} (a a' : A) (b b' : B) :
  Ok (a, b) = Ok (a', b') -> a = a' ∧ b = b'.
Proof. intros H. by inversion H. Qed.

Lemma Ok_triple_inj {A B C : Type} (a a' : A) (b b' : B) (c c' : C) :
  Ok (a, b, c) = Ok (a', b', c') -> a = a' ∧ b = b' ∧ c = c'.
Proof. intros H. by inversion H. Qed.

(** Split the first [bnd] of a hypothesis [H : ... = Ok _]. *)
Ltac bind_inv H :=
  let a := fresh "a" in
  let Ha := fresh "Hrun" in
  apply bind_Ok in H; destruct H as (a & Ha & H).

Lemma for_each_inv {A B : Type} (P : A -> Prop) (body : B -> A -> result A) ns :
  (∀ n a a', P a -> body n a = Ok a' -> P a') ->
  ∀ a a', P a -> for_each body ns a = Ok a' -> P a'.
Proof.
  intros Hbody. induction ns as [|n ns IH]; intros a a' Ha H.
  - rewrite for_each_nil in H. by apply Ok_inj in H as <-.
  - rewrite for_each_cons in H. bind_inv H. eauto.
Qed.

(** ** Mixing in *)

Lemma addrandom_step_Ok dat datlen n r r' :
  addrandom_step dat datlen n r = Ok r' ->
  as_i r' = u8 (as_i r + 1) ∧ is_u8 (as_j r') ∧
  as_s r' = swap (as_s r) (as_i r') (as_j r').
Proof.
  unfold addrandom_step. destruct (datlen =? 0); [discriminate|].
  destruct (dat !! _) as [d|]; [|discriminate].
  intros H. apply Ok_inj in H as <-. simpl. auto using u8_is_u8.
Qed.

Lemma addrandom_step_stream_ok dat datlen n r r' :
  stream_ok r -> addrandom_step dat datlen n r = Ok r' -> stream_ok r'.
Proof.
  intros (Hi & Hj & Hl) H. apply addrandom_step_Ok in H as (Hi' & Hj' & Hs').
  unfold stream_ok. rewrite Hs', length_swap, Hi'. auto using u8_is_u8.
Qed.

Lemma addrandom_step_table_ok dat datlen n r r' :
  table_ok (as_s r) -> addrandom_step dat datlen n r = Ok r' -> table_ok (as_s r').
Proof.
  intros Ht H. apply addrandom_step_Ok in H as (Hi' & Hj' & Hs').
  rewrite Hs'. apply table_ok_swap; [exact Ht | rewrite Hi'; apply u8_is_u8 | exact Hj'].
Qed.

Lemma addrandom_stream_ok dat datlen r r' :
  stream_ok r -> alt_arc4_addrandom dat datlen r = Ok r' -> stream_ok r'.
Proof.
  intros (Hi & Hj & Hl) H. unfold alt_arc4_addrandom in H. bind_inv H.
  apply Ok_inj in H as <-.
  eapply (for_each_inv stream_ok) in Hrun;
    [| intros; eapply addrandom_step_stream_ok; eassumption
     | unfold stream_ok; simpl; auto using u8_is_u8 ].
  destruct Hrun as (Hi' & _ & Hl'). unfold stream_ok. simpl. auto.
Qed.

Lemma addrandom_table_ok dat datlen r r' :
  table_ok (as_s r) -> alt_arc4_addrandom dat datlen r = Ok r' -> table_ok (as_s r').
Proof.
  intros Ht H. unfold alt_arc4_addrandom in H. bind_inv H.
  apply Ok_inj in H as <-. simpl.
  eapply (for_each_inv (λ r, table_ok (as_s r))) in Hrun;
    [exact Hrun | intros; eapply addrandom_step_table_ok; eassumption | exact Ht].
Qed.

(** ** Reseeding *)

Lemma init_Ok w st w' st' :
  length (as_s (rs st)) = 256%nat ->
  alt_arc4_init w st = Ok (w', st') ->
  rs st' = {| as_i := 0; as_j := 0; as_s := seqZ 0 256 |} ∧
  rs_initialized st' = rs_initialized st ∧
  alt_arc4_stir_pid st' = alt_arc4_stir_pid st ∧
  alt_arc4_count st' = alt_arc4_count st ∧
  random_data_source_fd st' ≠ -1.
Proof.
  intros Hl. unfold alt_arc4_init. rewrite init_loop_identity by exact Hl. simpl.
  destruct (random_data_source_fd st =? -1) eqn:Hfd; simpl.
  - destruct (alt_arc4_random_dev_open w) as [w1 fd].
    destruct (fd =? -1) eqn:Hfd'; [discriminate|].
    intros H. apply Ok_pair_inj in H as [<- <-]. simpl. repeat split. lia.
  - intros H. apply Ok_pair_inj in H as [<- <-]. simpl. repeat split. lia.
Qed.

Lemma stir_Ok w st w' st' :
  core st ->
  alt_arc4_stir w st = Ok (w', st') ->
  core st' ∧ rs_initialized st' = true ∧
  alt_arc4_count st' = 1600000 ∧
  alt_arc4_stir_pid st' = alt_arc4_stir_pid st.
Proof.
  intros [Hs Ht] H. unfold alt_arc4_stir in H. bind_inv H.
  destruct a as [w1 st1].
  assert (keyed (rs st1) ∧ rs_initialized st1 = true
          ∧ alt_arc4_stir_pid st1 = alt_arc4_stir_pid st) as ([Hs1 Ht1] & Hi1 & Hp).
  { destruct (rs_initialized st) eqn:Hi; simpl in Hrun.
    - apply Ok_pair_inj in Hrun as [<- <-]. split; [split|]; auto.
    - bind_inv Hrun. destruct a as [w2 st2]. apply Ok_pair_inj in Hrun as [<- <-].
      apply init_Ok in Hrun0 as (Hr & _ & Hp & _); [|apply Hs].
      simpl. rewrite Hr. split; [split|]; auto.
      + unfold stream_ok, is_u8. cbn [as_i as_j as_s]. rewrite length_seqZ. lia.
      + unfold table_ok. reflexivity. }
  cbv zeta in H. destruct (safe_read _ _ _ _) as [w2 rnd]. bind_inv H.
  apply Ok_pair_inj in H as [<- <-].
  split; [split|]; simpl; auto.
  - apply discard_stream_ok. eapply addrandom_stream_ok; eassumption.
  - intros _. apply discard_table_ok. eapply addrandom_table_ok; eassumption.
Qed.

Lemma stir_if_needed_Ok w st w' st' :
  core st ->
  alt_arc4_stir_if_needed w st = Ok (w', st') ->
  core st' ∧ rs_initialized st' = true ∧
  alt_arc4_stir_pid st' = w_pid w ∧
  (alt_arc4_count st' = 1600000 ∨
   st' = st ∧ 0 < alt_arc4_count st).
Proof.
  intros Hc H. unfold alt_arc4_stir_if_needed, os_getpid in H.
  destruct (stir_needed (w_pid w) st) eqn:Hn.
  - apply stir_Ok in H as (Hc' & Hi' & Hn' & Hp'); [|exact Hc]. auto.
  - apply Ok_pair_inj in H as [<- <-]. unfold stir_needed in Hn.
    apply orb_false_elim in Hn as [Hn Hp]. apply orb_false_elim in Hn as [Hn Hi].
    apply negb_false_iff in Hi, Hp. apply Z.leb_gt in Hn. apply Z.eqb_eq in Hp.
    split; [exact Hc|]. auto.
Qed.

(** ** The invariant is kept by every public call *)

Lemma inv_fresh : inv fresh.
Proof.
  unfold inv, stream_ok, is_u8. cbn [fresh rs as_i as_j as_s rs_initialized alt_arc4_count].
  rewrite length_replicate. repeat split; lia || discriminate.
Qed.

Lemma core_getbyte st :
  core st -> core (set_rs (snd (alt_arc4_getbyte (rs st))) st).
Proof.
  intros [Hs Ht]. split.
  - apply getbyte_stream_ok, Hs.
  - intros Hi. apply getbyte_table_ok, Ht, Hi.
Qed.

Lemma core_getword st :
  core st -> core (set_rs (snd (alt_arc4_getword (rs st))) st).
Proof.
  intros [Hs Ht]. rewrite getword_stream. split.
  - apply discard_stream_ok, Hs.
  - intros Hi. apply discard_table_ok, Ht, Hi.
Qed.

Lemma random_Ok w st w' st' v :
  inv st ->
  alt_arc4random w st = Ok (w', st', v) ->
  inv st' ∧ rs_initialized st' = true ∧ alt_arc4_stir_pid st' = w_pid w.
Proof.
  intros (Hs & Ht & Hn) H. unfold alt_arc4random in H. bind_inv H.
  destruct a as [w1 st1].
  apply stir_if_needed_Ok in Hrun as (Hc1 & Hi1 & Hp1 & Hn1); [|by split].
  pose proof (core_getword st1 Hc1) as [Hs2 Ht2].
  destruct (alt_arc4_getword (rs st1)) as [val r].
  apply Ok_triple_inj in H as (<- & <- & <-).
  repeat split; try apply Hs2; auto.
  - simpl. destruct Hn1 as [->|[-> Hn1]]; simpl in *; lia.
  - simpl. destruct Hn1 as [->|[-> Hn1]]; simpl in *; lia.
Qed.

Lemma buf_loop_Ok n : ∀ w st buf w' st' buf',
  core st -> alt_arc4_count st <= 1600000 ->
  buf_loop n w st buf = Ok (w', st', buf') ->
  core st' ∧ alt_arc4_count st' <= 1600000
  ∧ (n ≠ 0%nat -> 0 <= alt_arc4_count st')
  ∧ (n = 0%nat -> st' = st)
  ∧ (rs_initialized st = true -> rs_initialized st' = true)
  ∧ alt_arc4_stir_pid st' = alt_arc4_stir_pid st.
Proof.
  induction n as [|n IH]; intros w st buf w' st' buf' Hc Hn H.
  - apply Ok_triple_inj in H as (<- & <- & <-). repeat split; auto; try apply Hc.
    intros []. reflexivity.
  - rewrite buf_loop_S in H. bind_inv H. destruct a as [w1 st1].
    case_bool_decide; [|discriminate H].
    assert (core st1 ∧ 0 <= alt_arc4_count st1 <= 1600000
            ∧ (rs_initialized st = true -> rs_initialized st1 = true)
            ∧ alt_arc4_stir_pid st1 = alt_arc4_stir_pid st) as (Hc1 & Hn1 & Hi1 & Hp1).
    { simpl in Hrun. destruct (alt_arc4_count st - 1 <=? 0) eqn:Hle.
      - apply stir_Ok in Hrun as (Hc1 & Hi1 & Hn1 & Hp1); [|exact Hc].
        rewrite Hn1. split; [exact Hc1|]. split; [lia|]. auto.
      - apply Ok_pair_inj in Hrun as [<- <-]. apply Z.leb_gt in Hle. simpl.
        split; [exact Hc|]. split; [lia|]. auto. }
    pose proof (core_getbyte st1 Hc1) as Hc2.
    apply IH in H as (Hc' & Hn' & Hge & Hz & Hi & Hp); [|exact Hc2|simpl; lia].
    split; [exact Hc'|]. split; [exact Hn'|]. split; [|split; [|split]].
    + intros _. destruct n; [rewrite Hz by done; simpl; lia | apply Hge; done].
    + discriminate.
    + simpl in Hi. auto.
    + simpl in Hp. congruence.
Qed.

Lemma uniform_loop_Ok fuel min : ∀ w st w' st' r,
  inv st ->
  uniform_loop fuel min w st = Ok (w', st', r) ->
  inv st' ∧ rs_initialized st' = true.
Proof.
  induction fuel as [|fuel IH]; intros w st w' st' r Hinv H; simpl in H.
  - discriminate.
  - bind_inv H. destruct a as [[w1 st1] r1].
    apply random_Ok in Hrun as (Hinv1 & Hi1 & Hp1); [|exact Hinv].
    destruct (min <=? r1).
    + apply Ok_triple_inj in H as (<- & <- & <-). auto.
    + eapply IH; eassumption.
Qed.

Lemma do_call_inv c w st w' st' out :
  inv st -> do_call c w st = Ok (w', st', out) -> inv st'.
Proof.
  intros Hinv H. pose proof Hinv as (Hs & Ht & Hn).
  assert (core st) as Hc by (by split).
  destruct c as [|dat datlen| |buf n|wide fuel u| |f]; simpl in H.
  - (* stir *)
    bind_inv H. destruct a as [w1 st1]. apply Ok_triple_inj in H as (<- & <- & <-).
    apply stir_Ok in Hrun as ([Hs1 Ht1] & Hi1 & Hn1 & _); [|by split].
    split; [exact Hs1|]. split; [exact Ht1|]. lia.
  - (* addrandom *)
    bind_inv H. destruct a as [w1 st1]. apply Ok_triple_inj in H as (<- & <- & <-).
    unfold alt_arc4random_addrandom in Hrun. bind_inv Hrun. destruct a as [w2 st2].
    bind_inv Hrun. apply Ok_pair_inj in Hrun as [<- <-].
    assert (core st2 ∧ 0 <= alt_arc4_count st2 <= 1600000) as ([Hs2 Ht2] & Hn2).
    { clear Ht. destruct (rs_initialized st); simpl in Hrun0.
      - apply Ok_pair_inj in Hrun0 as [<- <-]. by split.
      - apply stir_Ok in Hrun0 as (Hc2 & _ & -> & _); [|exact Hc].
        split; [exact Hc2|lia]. }
    split; [|split]; simpl.
    + eapply addrandom_stream_ok; eassumption.
    + intros Hi. eapply addrandom_table_ok; [|eassumption]. by apply Ht2.
    + exact Hn2.
  - (* random *)
    bind_inv H. destruct a as [[w1 st1] v]. apply Ok_triple_inj in H as (<- & <- & <-).
    by apply random_Ok in Hrun as (? & _).
  - (* buf *)
    unfold alt_arc4random_buf in H. bind_inv H. destruct a as [w1 st1].
    apply stir_if_needed_Ok in Hrun as (Hc1 & Hi1 & Hp1 & Hn1); [|by split].
    assert (0 <= alt_arc4_count st1 <= 1600000) as Hn1'.
    { destruct Hn1 as [->|[-> ?]]; lia. }
    apply buf_loop_Ok in H as ([Hs' Ht'] & Hle & Hge & Hz & _); [|exact Hc1|lia].
    split; [exact Hs'|]. split; [exact Ht'|].
    destruct n; [rewrite Hz by done; lia|]. split; [by apply Hge|exact Hle].
  - (* uniform *)
    bind_inv H. destruct a as [[w1 st1] v]. apply Ok_triple_inj in H as (<- & <- & <-).
    unfold alt_arc4random_uniform in Hrun. destruct (u <? 2).
    + by apply Ok_triple_inj in Hrun as (_ & <- & _).
    + bind_inv Hrun. destruct a as [[w2 st2] r].
      apply Ok_triple_inj in Hrun as (_ & <- & _).
      by apply uniform_loop_Ok in Hrun0 as (? & _).
  - (* close *)
    unfold alt_arc4random_close in H.
    destruct (negb _); [|by apply Ok_triple_inj in H as (_ & <- & _)].
    destruct (os_close _ _) as [w1 c]. destruct (c =? 0);
      by apply Ok_triple_inj in H as (_ & <- & _).
  - (* the environment *)
    by apply Ok_triple_inj in H as (_ & <- & _).
Qed.

Lemma run_inv cs : ∀ w st last w' st' out,
  inv st -> run cs w st last = Ok (w', st', out) -> inv st'.
Proof.
  induction cs as [|c cs IH]; intros w st last w' st' out Hinv H; simpl in H.
  - by apply Ok_triple_inj in H as (_ & <- & _).
  - bind_inv H. destruct a as [[w1 st1] out1].
    eapply IH; [|exact H]. eapply do_call_inv; eassumption.
Qed.

(** C4: after any sequence of public calls from the fresh state, once the
    generator is initialized its table is a permutation of 0..255 and the
    counters i and j are in [0,255]; the next mutation, by [getbyte] or by a
    round of the mixing loop, is a swap of the two cells indexed by the new
    i and j, themselves in [0,255]. *)
Theorem permutation_preserved (cs : list call) (w w' : World) (st' : State)
  (out : list Z) :
  run cs w fresh [] = Ok (w', st', out) ->
  rs_initialized st' = true ->
  as_s (rs st') ≡ₚ seqZ 0 256 ∧
  is_u8 (as_i (rs st')) ∧ is_u8 (as_j (rs st')) ∧
  (let r' := snd (alt_arc4_getbyte (rs st')) in
   is_u8 (as_i r') ∧ is_u8 (as_j r') ∧
   as_s r' = swap (as_s (rs st')) (as_i r') (as_j r')) ∧
  (∀ dat datlen n r',
     addrandom_step dat datlen n (rs st') = Ok r' ->
     is_u8 (as_i r') ∧ is_u8 (as_j r') ∧
     as_s r' = swap (as_s (rs st')) (as_i r') (as_j r')).
Proof.
  intros Hrun Hi.
  apply run_inv in Hrun as ((Hsi & Hsj & _) & Ht & _); [|apply inv_fresh].
  split; [exact (Ht Hi)|]. split; [exact Hsi|]. split; [exact Hsj|]. split.
  - pose proof (getbyte_indices (rs st')) as [? ?].
    cbv zeta. split; [done|]. split; [done|]. apply getbyte_swap.
  - intros dat datlen n r' H.
    apply addrandom_step_Ok in H as (Hi' & Hj' & Hs').
    split; [rewrite Hi'; apply u8_is_u8|]. by split.
Qed.

Lemma permutation_preserved_witness :
  ∃ w' st' out,
    run sample_calls mock fresh [] = Ok (w', st', out) ∧
    rs_initialized st' = true ∧
    as_s (rs st') ≡ₚ seqZ 0 256.
Proof.
  destruct (run sample_calls mock fresh []) as [[[w' st'] out]| |] eqn:E.
  - assert (rs_initialized st' = true) as Hi.
    { change st' with (final_state (Ok (w', st', out))). rewrite <- E.
      vm_compute. reflexivity. }
    exists w', st', out. split; [reflexivity|]. split; [exact Hi|].
    apply (permutation_preserved _ _ _ _ _ E Hi).
  - vm_compute in E. discriminate E.
  - vm_compute in E. discriminate E.
Defined.

(** ** When the mixing loop is defined *)

Lemma for_each_total {A B : Type} (body : B -> A -> result A) (ns : list B) :
  (∀ n a, n ∈ ns -> ∃ a', body n a = Ok a') ->
  ∀ a, ∃ a', for_each body ns a = Ok a'.
Proof.
  induction ns as [|n ns IH]; intros Hbody a.
  - exists a. apply for_each_nil.
  - rewrite for_each_cons. destruct (Hbody n a) as [a1 ->]; [left|]. simpl.
    apply IH. intros n' a' Hn'. apply Hbody. by right.
Qed.

Lemma rem_index n datlen : 0 <= n -> 1 <= datlen -> 0 <= Z.rem n datlen < datlen.
Proof. intros Hn Hd. apply Z.rem_bound_pos; lia. Qed.

Lemma addrandom_step_total dat datlen n r :
  1 <= datlen -> datlen <= Z.of_nat (length dat) -> 0 <= n ->
  ∃ r', addrandom_step dat datlen n r = Ok r'.
Proof.
  intros Hd Hl Hn. unfold addrandom_step.
  destruct (Z.eqb_spec datlen 0) as [->|_]; [lia|].
  pose proof (rem_index n datlen Hn Hd) as Hi.
  destruct (lookup_lt_is_Some_2 dat (Z.to_nat (Z.rem n datlen)) ltac:(lia)) as [d ->].
  eauto.
Qed.

Lemma addrandom_total dat datlen r :
  1 <= datlen -> datlen <= Z.of_nat (length dat) ->
  ∃ r', alt_arc4_addrandom dat datlen r = Ok r'.
Proof.
  intros Hd Hl. unfold alt_arc4_addrandom.
  edestruct (for_each_total (addrandom_step dat datlen) (seqZ 0 256)) as [r1 ->].
  - intros n a Hn. apply elem_of_seqZ in Hn. apply addrandom_step_total; lia.
  - simpl. eauto.
Qed.

Lemma addrandom_zero dat r : alt_arc4_addrandom dat 0 r = Fault DivByZero.
Proof.
  unfold alt_arc4_addrandom. rewrite seqZ_cons by lia. by rewrite for_each_cons.
Qed.

Lemma addrandom_Ok_datlen dat datlen r r' :
  alt_arc4_addrandom dat datlen r = Ok r' -> datlen ≠ 0.
Proof. intros H ->. by rewrite addrandom_zero in H. Qed.

(** ** What the system calls leave alone *)

Lemma safe_read_length w fd buf n :
  (n <= length buf)%nat -> length (safe_read w fd buf n).2 = length buf.
Proof.
  intros H. unfold safe_read. destruct (fd_open w fd); simpl; [|done].
  rewrite length_app, length_map, length_seq, length_drop. lia.
Qed.

Lemma safe_read_pid w fd buf n : w_pid (safe_read w fd buf n).1 = w_pid w.
Proof. unfold safe_read. by destruct (fd_open w fd). Qed.

Lemma dev_open_loop_pid ds w : w_pid (dev_open_loop ds w).1 = w_pid w.
Proof.
  induction ds as [|d ds IH]; simpl; [done|].
  destruct (w_access w d); [|done]. unfold os_open. by destruct (_ =? _).
Qed.

Lemma init_pid w st w' st' :
  alt_arc4_init w st = Ok (w', st') -> w_pid w' = w_pid w.
Proof.
  unfold alt_arc4_init. cbv zeta. destruct (negb _).
  - intros H. by apply Ok_pair_inj in H as [<- _].
  - pose proof (dev_open_loop_pid devices w) as Hp.
    unfold alt_arc4_random_dev_open. destruct (dev_open_loop devices w) as [w1 fd].
    destruct (fd =? -1); [discriminate|]. intros H.
    by apply Ok_pair_inj in H as [<- _].
Qed.

Lemma stir_unfold w st :
  alt_arc4_stir w st =
  bnd '(w1, st1) <~ prime w st in
  let rd := safe_read w1 (random_data_source_fd st1) (map (w_stack w1) (seq 0 128)) 128 in
  bnd r <~ alt_arc4_addrandom rd.2 128 (rs st1) in
  Ok (rd.1, set_count 1600000 (set_rs (discard 256 r) st1)).
Proof.
  unfold alt_arc4_stir, prime. destruct (negb _); [|simpl; by destruct (safe_read _ _ _ _)].
  destruct (alt_arc4_init w st) as [[w1 st1]| |]; simpl; [|done..].
  by destruct (safe_read _ _ _ _).
Qed.

Lemma prime_Ok w st w1 st1 :
  prime w st = Ok (w1, st1) ->
  w_pid w1 = w_pid w ∧ rs_initialized st1 = true ∧
  alt_arc4_stir_pid st1 = alt_arc4_stir_pid st ∧
  alt_arc4_count st1 = alt_arc4_count st ∧
  (rs_initialized st = true -> w1 = w ∧ st1 = st) ∧
  (rs_initialized st = false -> random_data_source_fd st1 ≠ -1).
Proof.
  unfold prime. destruct (rs_initialized st) eqn:Hi; simpl; intros H.
  - apply Ok_pair_inj in H as [<- <-]. by repeat split.
  - bind_inv H. destruct a as [w2 st2]. apply Ok_pair_inj in H as [<- <-].
    pose proof (init_pid _ _ _ _ Hrun) as Hp.
    unfold alt_arc4_init in Hrun. cbv zeta in Hrun.
    destruct (negb _) eqn:Hfd.
    + apply Ok_pair_inj in Hrun as [<- <-]. simpl in *.
      apply negb_true_iff, Z.eqb_neq in Hfd. by repeat split.
    + destruct (alt_arc4_random_dev_open w) as [w3 fd].
      destruct (Z.eqb_spec fd (-1)) as [|Hne]; [discriminate|].
      apply Ok_pair_inj in Hrun as [<- <-]. simpl. by repeat split.
Qed.

Lemma stir_total w st :
  rs_initialized st = true -> ∃ w' st', alt_arc4_stir w st = Ok (w', st').
Proof.
  intros Hi. rewrite stir_unfold. unfold prime. rewrite Hi. cbn [negb bind].
  set (rnd := safe_read _ _ _ _). cbv zeta.
  destruct (addrandom_total rnd.2 128 (rs st)) as [r ->]; [lia| |cbn [bind]; eauto].
  subst rnd. rewrite safe_read_length; rewrite length_map, length_seq; lia.
Qed.

(** ** Closing the handle *)

(** C1 (amended): [alt_arc4random_close] returns 0 or -1.  It returns 0
    exactly when a handle is stored and closing it succeeds, and the stored
    handle then becomes "none"; in every other case, a failing close() or no
    stored handle at all, it returns -1 and leaves the statics as they were. *)
Theorem close_result (w : World) (st : State) :
  ∃ w' st' ret,
    alt_arc4random_close w st = (w', st', ret) ∧
    (ret = 0 ∨ ret = -1) ∧
    (ret = 0 ↔ random_data_source_fd st ≠ -1 ∧
               (os_close w (random_data_source_fd st)).2 = 0) ∧
    (ret = 0 -> st' = set_fd (-1) st ∧ random_data_source_fd st' = -1) ∧
    (ret = -1 -> st' = st).
Proof.
  unfold alt_arc4random_close.
  destruct (Z.eqb_spec (random_data_source_fd st) (-1)) as [Hfd|Hfd]; simpl.
  - exists w, st, (-1). split; [reflexivity|]. split; [by right|]. split; [|split].
    + split; [intros ?; lia | intros [? _]; done].
    + intros ?. lia.
    + reflexivity.
  - destruct (os_close w (random_data_source_fd st)) as [w' c] eqn:Hc. simpl.
    destruct (Z.eqb_spec c 0) as [->|Hne].
    + exists w', (set_fd (-1) st), 0. split; [reflexivity|]. split; [by left|].
      split; [|split].
      * split; [intros _; by split | reflexivity].
      * intros _. by split.
      * intros ?. lia.
    + exists w', st, (-1). split; [reflexivity|]. split; [by right|].
      split; [|split].
      * split; [intros ?; lia | intros [_ ?]; done].
      * intros ?. lia.
      * reflexivity.
Qed.

(** C1, as stated, fails: on the fresh generator of a process that never
    asked for randomness, close() returns -1 although no close was attempted
    at all, so it neither returns 0 there nor returns -1 only for a failed
    close. *)
Lemma close_fresh_returns_minus_one :
  (alt_arc4random_close mock fresh).2 = -1 ∧
  (alt_arc4random_close mock fresh).2 ≠ 0 ∧
  w_trace (alt_arc4random_close mock fresh).1.1 = [].
Proof. vm_compute. repeat split. discriminate. Qed.

(** ** The mixing loop and its buffer *)

Lemma for_each_Ok_elem {A B : Type} (body : B -> A -> result A) (ns : list B) :
  ∀ a a', for_each body ns a = Ok a' ->
  ∀ n, n ∈ ns -> ∃ a1 a2, body n a1 = Ok a2.
Proof.
  induction ns as [|m ns IH]; intros a a' H n Hn; [by apply elem_of_nil in Hn|].
  rewrite for_each_cons in H. bind_inv H.
  apply elem_of_cons in Hn as [->|Hn]; [eauto|]. by eapply IH.
Qed.

Lemma rem_index_abs n datlen :
  0 <= n -> datlen ≠ 0 ->
  0 <= Z.rem n datlen < Z.abs datlen ∧ Z.rem n datlen <= n.
Proof.
  intros Hn Hd. rewrite <- (Z.rem_abs_r n datlen) by exact Hd.
  pose proof (Z.rem_bound_pos n (Z.abs datlen) Hn ltac:(lia)) as Hb.
  split; [exact Hb|]. rewrite Z.rem_mod_nonneg by lia. apply Z.mod_le; lia.
Qed.

Lemma addrandom_step_defined dat datlen n r :
  0 <= n ->
  (∃ r', addrandom_step dat datlen n r = Ok r') ↔
  datlen ≠ 0 ∧ Z.rem n datlen < Z.of_nat (length dat).
Proof.
  intros Hn. unfold addrandom_step.
  destruct (Z.eqb_spec datlen 0) as [->|Hd].
  - split; [intros [r' H]; discriminate H|intros [H _]; by destruct H].
  - pose proof (rem_index_abs n datlen Hn Hd) as [Hi _].
    destruct (dat !! Z.to_nat (Z.rem n datlen)) as [d|] eqn:E.
    + apply lookup_lt_Some in E. split; [intros _; split; [done|lia]|eauto].
    + apply lookup_ge_None in E.
      split; [intros [r' H]; discriminate H|intros [_ H]; lia].
Qed.

Lemma for_each_addrandom_no_division dat datlen ns : ∀ r,
  datlen ≠ 0 -> for_each (addrandom_step dat datlen) ns r ≠ Fault DivByZero.
Proof.
  induction ns as [|n ns IH]; intros r Hd; [by rewrite for_each_nil|].
  rewrite for_each_cons. unfold addrandom_step at 1.
  destruct (Z.eqb_spec datlen 0) as [|_]; [done|]. destruct (dat !! _); [|done].
  cbn [bind]. by apply IH.
Qed.

Lemma addrandom_defined dat datlen r :
  (∃ r', alt_arc4_addrandom dat datlen r = Ok r') ↔
  datlen ≠ 0 ∧ Z.min (Z.abs datlen) 256 <= Z.of_nat (length dat).
Proof.
  unfold alt_arc4_addrandom.
  set (r0 := {| as_i := u8 (as_i r - 1); as_j := as_j r; as_s := as_s r |}).
  split.
  - intros [r' H]. bind_inv H.
    assert (datlen ≠ 0) as Hd.
    { destruct (for_each_Ok_elem _ _ _ _ Hrun 0) as (a1 & a2 & H0).
      - apply elem_of_seqZ. lia.
      - apply (proj1 (addrandom_step_defined dat datlen 0 a1 ltac:(lia))). eauto. }
    split; [exact Hd|].
    set (n := Z.min (Z.abs datlen) 256 - 1).
    destruct (for_each_Ok_elem _ _ _ _ Hrun n) as (a1 & a2 & H0).
    { apply elem_of_seqZ. lia. }
    assert (∃ r', addrandom_step dat datlen n a1 = Ok r') as Hs by eauto.
    apply addrandom_step_defined in Hs as [_ Hs]; [|lia].
    rewrite <- (Z.rem_abs_r n datlen), Z.rem_small in Hs by lia. lia.
  - intros [Hd Hl].
    edestruct (for_each_total (addrandom_step dat datlen) (seqZ 0 256)) as [r1 ->].
    + intros n a Hn. apply elem_of_seqZ in Hn.
      apply addrandom_step_defined; [lia|]. split; [exact Hd|].
      pose proof (rem_index_abs n datlen ltac:(lia) Hd). lia.
    + cbn [bind]. eauto.
Qed.

Lemma addrandom_division dat datlen r :
  alt_arc4_addrandom dat datlen r = Fault DivByZero ↔ datlen = 0.
Proof.
  split; [|intros ->; apply addrandom_zero].
  intros H. destruct (Z.eq_dec datlen 0) as [|Hd]; [done|]. exfalso.
  unfold alt_arc4_addrandom in H.
  pose proof (for_each_addrandom_no_division dat datlen (seqZ 0 256)
    {| as_i := u8 (as_i r - 1); as_j := as_j r; as_s := as_s r |} Hd) as Hn.
  destruct (for_each _ _ _) as [?|[]|]; cbn [bind] in H; try discriminate H.
  by apply Hn.
Qed.

(** C10 (amended): the mixing loop divides by [datlen], a signed [int], without
    a guard, and it reaches a modulo by zero exactly when [datlen = 0].  For
    [datlen <> 0] round [n] reads [dat] at [n rem datlen], C's truncating
    remainder, which lies in [0, min(|datlen|, 256)) whatever the sign of
    [datlen]; so the loop is defined exactly when [datlen <> 0] and [dat]
    holds at least [min(|datlen|, 256)] bytes.  For a buffer of exactly
    [datlen] bytes that is exactly when [datlen >= 1].  The public
    [alt_arc4random_addrandom] has no guard of its own: with [datlen = 0] it
    never returns, and once the generator is initialized, or its first reseed
    succeeded, the fault is the division. *)
Theorem addrandom_defined_iff (dat : list Z) (datlen : Z) (r : alt_arc4_stream) :
  ((∃ r', alt_arc4_addrandom dat datlen r = Ok r') ↔
   datlen ≠ 0 ∧ Z.min (Z.abs datlen) 256 <= Z.of_nat (length dat)) ∧
  (alt_arc4_addrandom dat datlen r = Fault DivByZero ↔ datlen = 0) ∧
  (datlen ≠ 0 ->
   ∀ n, 0 <= n < 256 -> 0 <= Z.rem n datlen < Z.min (Z.abs datlen) 256) ∧
  (datlen = Z.of_nat (length dat) ->
   ((∃ r', alt_arc4_addrandom dat datlen r = Ok r') ↔ 1 <= datlen)) ∧
  (datlen = 0 ->
   ∀ w st,
     (∀ w' st', alt_arc4random_addrandom dat datlen w st ≠ Ok (w', st')) ∧
     (rs_initialized st = true ∨ (∃ w1 st1, alt_arc4_stir w st = Ok (w1, st1)) ->
      alt_arc4random_addrandom dat datlen w st = Fault DivByZero)).
Proof.
  split; [apply addrandom_defined|]. split; [apply addrandom_division|].
  split; [|split].
  - intros Hd n Hn. pose proof (rem_index_abs n datlen ltac:(lia) Hd). lia.
  - intros Hlen. rewrite addrandom_defined. lia.
  - intros -> w st. split.
    + intros w' st' H. unfold alt_arc4random_addrandom in H.
      bind_inv H. destruct a as [w1 st1]. bind_inv H.
      by rewrite addrandom_zero in Hrun0.
    + intros Hi. unfold alt_arc4random_addrandom.
      destruct Hi as [->|(w1 & st1 & Hs)]; cbn [negb bind].
      * by rewrite addrandom_zero.
      * destruct (negb _); [rewrite Hs|]; cbn [bind]; by rewrite addrandom_zero.
Qed.

Lemma addrandom_defined_iff_witness :
  (∃ r', alt_arc4_addrandom [7; 8; 9] 3 (rs fresh) = Ok r') ∧
  (∃ r', alt_arc4_addrandom [7; 8; 9] (-3) (rs fresh) = Ok r') ∧
  alt_arc4_addrandom [7; 8; 9] 4 (rs fresh) = Fault OutOfBounds ∧
  alt_arc4_addrandom [] 0 (rs fresh) = Fault DivByZero.
Proof.
  split; [|split; [|split]].
  - apply (proj1 (addrandom_defined_iff [7; 8; 9] 3 (rs fresh))). simpl. lia.
  - apply (proj1 (addrandom_defined_iff [7; 8; 9] (-3) (rs fresh))). simpl. lia.
  - vm_compute. reflexivity.
  - apply (proj1 (proj2 (addrandom_defined_iff [] 0 (rs fresh)))). reflexivity.
Defined.

(** C10 as the specification has it fails for a negative length: the loop
    over a 3-byte buffer with [datlen = -3] is defined, since C's remainder
    [n % -3] is one of 0, 1, 2. *)
Lemma addrandom_negative_length_defined :
  ¬ (1 <= -3) ∧
  (∀ n, n ∈ seqZ 0 256 -> -3 ≠ 0 ∧ 0 <= Z.rem n (-3) < 3) ∧
  ∃ r', alt_arc4_addrandom [1; 2; 3] (-3) (rs fresh) = Ok r'.
Proof.
  split; [lia|]. split.
  - intros n Hn. apply elem_of_seqZ in Hn. split; [lia|].
    apply (rem_index_abs n (-3)); lia.
  - vm_compute. eexists. reflexivity.
Qed.

(** ** The shape of a reseed *)

Lemma stir_inversion w st w' st' :
  alt_arc4_stir w st = Ok (w', st') ->
  ∃ w1 st1 r,
    prime w st = Ok (w1, st1) ∧
    let rnd := safe_read w1 (random_data_source_fd st1)
                 (map (w_stack w1) (seq 0 128)) 128 in
    alt_arc4_addrandom rnd.2 128 (rs st1) = Ok r ∧
    w' = rnd.1 ∧
    st' = set_count 1600000 (set_rs (discard 256 r) st1).
Proof.
  rewrite stir_unfold. intros H. bind_inv H. destruct a as [w1 st1].
  cbv zeta in H. bind_inv H. apply Ok_pair_inj in H as [<- <-].
  exists w1, st1, a. auto.
Qed.

Lemma stir_frame w st w' st' :
  alt_arc4_stir w st = Ok (w', st') ->
  w_pid w' = w_pid w ∧
  (rs_initialized st = true -> random_data_source_fd st' = random_data_source_fd st) ∧
  (rs_initialized st = false -> random_data_source_fd st' ≠ -1).
Proof.
  intros H. apply stir_inversion in H as (w1 & st1 & r & Hp & Ha & -> & ->).
  apply prime_Ok in Hp as (Hpid & _ & _ & _ & Hi & Hu).
  rewrite safe_read_pid. split; [exact Hpid|]. simpl. split.
  - intros Hinit. by destruct (Hi Hinit) as [_ ->].
  - exact Hu.
Qed.

Lemma stir_if_needed_frame w st w' st' :
  rs_initialized st = true ->
  alt_arc4_stir_if_needed w st = Ok (w', st') ->
  random_data_source_fd st' = random_data_source_fd st.
Proof.
  intros Hi H. unfold alt_arc4_stir_if_needed in H.
  destruct (stir_needed _ _).
  - apply stir_frame in H as (_ & Hfd & _). by rewrite Hfd.
  - by apply Ok_pair_inj in H as [_ <-].
Qed.

Lemma random_frame w st w' st' v :
  rs_initialized st = true ->
  alt_arc4random w st = Ok (w', st', v) ->
  random_data_source_fd st' = random_data_source_fd st.
Proof.
  intros Hi H. unfold alt_arc4random in H. bind_inv H. destruct a as [w1 st1].
  destruct (alt_arc4_getword _) as [val r].
  apply Ok_triple_inj in H as (_ & <- & _).
  by apply stir_if_needed_frame in Hrun.
Qed.

Lemma buf_loop_frame n : ∀ w st buf w' st' buf',
  rs_initialized st = true ->
  buf_loop n w st buf = Ok (w', st', buf') ->
  random_data_source_fd st' = random_data_source_fd st ∧ rs_initialized st' = true.
Proof.
  induction n as [|n IH]; intros w st buf w' st' buf' Hi H.
  - by apply Ok_triple_inj in H as (_ & <- & _).
  - rewrite buf_loop_S in H. bind_inv H. destruct a as [w1 st1].
    case_bool_decide; [|discriminate H].
    assert (rs_initialized st1 = true ∧
            random_data_source_fd st1 = random_data_source_fd st) as [Hi1 Hfd1].
    { destruct (_ <=? _).
      - pose proof Hrun as Hf. apply stir_frame in Hf as (_ & Hfd & _).
        apply stir_inversion in Hrun as (w2 & st2 & r & Hp & _ & _ & ->).
        apply prime_Ok in Hp as (_ & Hi2 & _). split; [exact Hi2|by apply Hfd].
      - by apply Ok_pair_inj in Hrun as [_ <-]. }
    apply IH in H as [Hfd' Hi']; [|exact Hi1]. simpl in Hfd'. split; congruence.
Qed.

Lemma random_initialized w st w' st' v :
  alt_arc4random w st = Ok (w', st', v) -> rs_initialized st' = true.
Proof.
  intros H. unfold alt_arc4random in H. bind_inv H. destruct a as [w1 st1].
  destruct (alt_arc4_getword _) as [val r].
  apply Ok_triple_inj in H as (_ & <- & _). simpl.
  unfold alt_arc4_stir_if_needed in Hrun.
  destruct (stir_needed _ _) eqn:Hn.
  - apply stir_inversion in Hrun as (w2 & st2 & r2 & Hp & _ & _ & ->).
    by apply prime_Ok in Hp as (_ & Hi2 & _).
  - apply Ok_pair_inj in Hrun as [_ <-]. unfold stir_needed in Hn.
    apply orb_false_elim in Hn as [Hn _]. apply orb_false_elim in Hn as [_ Hn].
    by apply negb_false_iff in Hn.
Qed.

Lemma uniform_loop_frame fuel min : ∀ w st w' st' r,
  rs_initialized st = true ->
  uniform_loop fuel min w st = Ok (w', st', r) ->
  random_data_source_fd st' = random_data_source_fd st ∧ rs_initialized st' = true.
Proof.
  induction fuel as [|fuel IH]; intros w st w' st' r Hi H; simpl in H.
  - discriminate.
  - bind_inv H. destruct a as [[w1 st1] r1].
    pose proof (random_frame _ _ _ _ _ Hi Hrun) as Hfd.
    pose proof (random_initialized _ _ _ _ _ Hrun) as Hi1.
    destruct (min <=? r1).
    + by apply Ok_triple_inj in H as (_ & <- & _).
    + apply IH in H as [Hfd' Hi']; [|exact Hi1]. split; congruence.
Qed.

Lemma do_call_frame c w st w' st' out :
  rs_initialized st = true -> random_data_source_fd st = -1 ->
  do_call c w st = Ok (w', st', out) ->
  rs_initialized st' = true ∧ random_data_source_fd st' = -1.
Proof.
  intros Hi Hfd H.
  destruct c as [|dat datlen| |buf n|wide fuel u| |f]; simpl in H.
  - bind_inv H. destruct a as [w1 st1]. apply Ok_triple_inj in H as (_ & <- & _).
    unfold alt_arc4random_stir in Hrun.
    pose proof Hrun as Hf. apply stir_frame in Hf as (_ & Hf & _).
    apply stir_inversion in Hrun as (w2 & st2 & r & Hp & _ & _ & ->).
    apply prime_Ok in Hp as (_ & Hi2 & _). rewrite <- Hfd, <- Hf; auto.
  - bind_inv H. destruct a as [w1 st1]. apply Ok_triple_inj in H as (_ & <- & _).
    unfold alt_arc4random_addrandom in Hrun. rewrite Hi in Hrun. simpl in Hrun.
    bind_inv Hrun. by apply Ok_pair_inj in Hrun as [_ <-].
  - bind_inv H. destruct a as [[w1 st1] v]. apply Ok_triple_inj in H as (_ & <- & _).
    pose proof (random_frame _ _ _ _ _ Hi Hrun).
    pose proof (random_initialized _ _ _ _ _ Hrun). split; congruence.
  - unfold alt_arc4random_buf in H. bind_inv H. destruct a as [w1 st1].
    pose proof (stir_if_needed_frame _ _ _ _ Hi Hrun) as Hfd1.
    assert (rs_initialized st1 = true) as Hi1.
    { unfold alt_arc4_stir_if_needed in Hrun. destruct (stir_needed _ _).
      - apply stir_inversion in Hrun as (w2 & st2 & r & Hp & _ & _ & ->).
        by apply prime_Ok in Hp as (_ & Hi2 & _).
      - by apply Ok_pair_inj in Hrun as [_ <-]. }
    pose proof (buf_loop_frame _ _ _ _ _ _ _ Hi1 H) as [Hfd2 Hi2].
    split; congruence.
  - bind_inv H. destruct a as [[w1 st1] v]. apply Ok_triple_inj in H as (_ & <- & _).
    unfold alt_arc4random_uniform in Hrun. destruct (u <? 2).
    + by apply Ok_triple_inj in Hrun as (_ & <- & _).
    + bind_inv Hrun. destruct a as [[w2 st2] r].
      apply Ok_triple_inj in Hrun as (_ & <- & _).
      apply uniform_loop_frame in Hrun0 as [? ?]; [|exact Hi]. split; congruence.
  - unfold alt_arc4random_close in H. rewrite Hfd in H. simpl in H.
    by apply Ok_triple_inj in H as (_ & <- & _).
  - by apply Ok_triple_inj in H as (_ & <- & _).
Qed.

Lemma run_frame cs : ∀ w st last w' st' out,
  rs_initialized st = true -> random_data_source_fd st = -1 ->
  run cs w st last = Ok (w', st', out) ->
  rs_initialized st' = true ∧ random_data_source_fd st' = -1.
Proof.
  induction cs as [|c cs IH]; intros w st last w' st' out Hi Hfd H; simpl in H.
  - by apply Ok_triple_inj in H as (_ & <- & _).
  - bind_inv H. destruct a as [[w1 st1] out1].
    apply do_call_frame in Hrun as [Hi1 Hfd1]; [|done..]. eapply IH; eassumption.
Qed.

Lemma stir_needed_false pid st :
  rs_initialized st = true -> alt_arc4_stir_pid st = pid -> 0 < alt_arc4_count st ->
  stir_needed pid st = false.
Proof.
  intros Hi Hp Hn. unfold stir_needed. rewrite Hi, Hp, Z.eqb_refl. simpl.
  rewrite !orb_false_r. apply Z.leb_gt, Hn.
Qed.

Lemma random_no_reseed w st :
  rs_initialized st = true -> alt_arc4_stir_pid st = os_getpid w ->
  4 < alt_arc4_count st ->
  alt_arc4random w st =
  Ok (w,
      set_rs (alt_arc4_getword (rs st)).2 (set_count (alt_arc4_count st - 4) st),
      (alt_arc4_getword (rs st)).1).
Proof.
  intros Hi Hp Hn. unfold alt_arc4random, alt_arc4_stir_if_needed.
  rewrite stir_needed_false by (simpl; auto; lia). simpl.
  by destruct (alt_arc4_getword (rs st)).
Qed.

(** C2 (amended): once close() has released the handle of an initialized
    generator nothing reacquires it: through every later sequence of public
    calls the generator stays initialized and the stored handle stays "none".
    A random() that follows with the same process id and more than 4 bytes
    left on the counter performs no reseed and no system call, and hands out
    the next word of the keystream. *)
Theorem closed_handle_stays_closed (w : World) (st : State) :
  rs_initialized st = true ->
  random_data_source_fd st = -1 ->
  (∀ cs last w' st' out,
     run cs w st last = Ok (w', st', out) ->
     rs_initialized st' = true ∧ random_data_source_fd st' = -1) ∧
  (alt_arc4_stir_pid st = os_getpid w -> 4 < alt_arc4_count st ->
   alt_arc4random w st =
   Ok (w,
       set_rs (alt_arc4_getword (rs st)).2 (set_count (alt_arc4_count st - 4) st),
       (alt_arc4_getword (rs st)).1)).
Proof.
  intros Hi Hfd. split.
  - intros cs last w' st' out H. eapply run_frame; eassumption.
  - intros Hp Hn. by apply random_no_reseed.
Qed.

Lemma closed_handle_stays_closed_witness :
  let r := run [Random; Close] mock fresh [] in
  let r' := run [Random; Buf (replicate 4 0) 4; Env (set_pid 77); Stir]
              (final_world r) (final_state r) [] in
  rs_initialized (final_state r) = true ∧
  random_data_source_fd (final_state r) = -1 ∧
  random_data_source_fd (final_state r') = -1 ∧
  ∃ st' v, alt_arc4random (final_world r) (final_state r)
           = Ok (final_world r, st', v).
Proof.
  intros r r'.
  assert (rs_initialized (final_state r) = true) as Hi by (vm_compute; reflexivity).
  assert (random_data_source_fd (final_state r) = -1) as Hfd by (vm_compute; reflexivity).
  destruct (closed_handle_stays_closed (final_world r) (final_state r) Hi Hfd)
    as [Hrun Hrandom].
  split; [exact Hi|]. split; [exact Hfd|]. split.
  - destruct r' as [[[w' st'] out]| |] eqn:E.
    + exact (proj2 (Hrun _ _ _ _ _ E)).
    + vm_compute in E. discriminate E.
    + vm_compute in E. discriminate E.
  - eexists _, _. apply Hrandom; vm_compute; reflexivity.
Defined.

(** C2, as stated, fails: random(), close(), random() under the test double.
    The second random() returns a word although the stored handle is "none":
    the device is opened once and read once, both by the first call, and
    nothing is opened or read after the close. *)
Lemma random_after_close_no_reseed :
  let r := run [Random; Close; Random] mock fresh [] in
  w_trace (final_world r)
  = [EvOpen "/dev/urandom" 3; EvRead 3 128 128; EvClose 3 0] ∧
  w_fds (final_world r) = [] ∧
  random_data_source_fd (final_state r) = -1 ∧
  final_out r = [4265939242].
Proof. vm_compute. repeat split. Qed.

(** ** After a reseed *)

(** C3 (amended): immediately after any reseed the counter equals the rekey
    interval 1,600,000.  After a reseed triggered by [stir_if_needed], the
    way random() and buf() reseed on entry, [stir_pid] equals the current
    process identifier; the reseed itself, which the public stir() calls
    directly, leaves [stir_pid] as it was. *)
Theorem after_reseed (internal : bool) (w w' : World) (st st' : State) :
  (if internal
   then stir_needed (os_getpid w) st = true ∧
        alt_arc4_stir_if_needed w st = Ok (w', st')
   else alt_arc4random_stir w st = Ok (w', st')) ->
  alt_arc4_count st' = 1600000 ∧
  os_getpid w' = os_getpid w ∧
  alt_arc4_stir_pid st' = (if internal then os_getpid w' else alt_arc4_stir_pid st).
Proof.
  destruct internal.
  - intros [Hn H]. unfold alt_arc4_stir_if_needed in H. rewrite Hn in H.
    pose proof (stir_frame _ _ _ _ H) as (Hpid & _).
    apply stir_inversion in H as (w1 & st1 & r & Hp & _ & _ & ->).
    apply prime_Ok in Hp as (_ & _ & Hsp & _). simpl in *.
    unfold os_getpid. rewrite Hpid. auto.
  - unfold alt_arc4random_stir. intros H.
    pose proof (stir_frame _ _ _ _ H) as (Hpid & _).
    apply stir_inversion in H as (w1 & st1 & r & Hp & _ & _ & ->).
    apply prime_Ok in Hp as (_ & _ & Hsp & _). simpl. auto.
Qed.

Lemma after_reseed_witness :
  let r := alt_arc4_stir_if_needed mock fresh in
  stir_needed (os_getpid mock) fresh = true ∧
  alt_arc4_count (state_of r) = 1600000 ∧
  alt_arc4_stir_pid (state_of r) = os_getpid (world_of r).
Proof.
  intros r. split; [vm_compute; reflexivity|].
  destruct (alt_arc4_stir_if_needed mock fresh) as [[w' st']| |] eqn:E.
  - assert (stir_needed (os_getpid mock) fresh = true) as Hn
      by (vm_compute; reflexivity).
    destruct (after_reseed true mock w' fresh st' (conj Hn E)) as (Hc & _ & Hp).
    subst r. simpl. by split.
  - vm_compute in E. discriminate E.
  - vm_compute in E. discriminate E.
Defined.

(** C3, as stated, fails for the public stir(): called on the fresh generator
    of process 1234 it reseeds and sets the counter, but [stir_pid] keeps its
    initial value 0. *)
Lemma public_stir_keeps_stir_pid :
  let r := alt_arc4random_stir mock fresh in
  alt_arc4_count (state_of r) = 1600000 ∧
  os_getpid (world_of r) = 1234 ∧
  alt_arc4_stir_pid (state_of r) = 0 ∧
  alt_arc4_stir_pid (state_of r) ≠ os_getpid (world_of r).
Proof. vm_compute. repeat split. discriminate. Qed.

(** ** Counting the reads *)

Lemma reads_log e w :
  reads (log e w) = (reads w + (if is_read e then 1 else 0))%nat.
Proof.
  unfold reads, log. simpl. rewrite filter_app, length_app. f_equal.
  rewrite filter_cons, filter_nil. by destruct (is_read e).
Qed.







(** ** A reseed goes through once primed *)

(** Once primed, a reseed goes through: the 128-byte buffer can be mixed in. *)
Lemma stir_after_prime w w1 st st1 :
  prime w st = Ok (w1, st1) ->
  ∃ r,
    let rd := safe_read w1 (random_data_source_fd st1)
                (map (w_stack w1) (seq 0 128)) 128 in
    length rd.2 = 128%nat ∧
    alt_arc4_addrandom rd.2 128 (rs st1) = Ok r ∧
    alt_arc4_stir w st = Ok (rd.1, set_count 1600000 (set_rs (discard 256 r) st1)).
Proof.
  intros Hp. set (rd := safe_read _ _ _ _).
  assert (length rd.2 = 128%nat) as Hrnd.
  { subst rd. rewrite safe_read_length; rewrite length_map, length_seq; lia. }
  destruct (addrandom_total rd.2 128 (rs st1)) as [r Hr]; [lia..|].
  exists r. cbv zeta. split; [exact Hrnd|]. split; [exact Hr|].
  rewrite stir_unfold, Hp. cbn [bind]. cbv zeta. fold rd. by rewrite Hr.
Qed.

(** ** When the public functions return *)

Lemma prime_total w st :
  can_prime w st = true -> ∃ w1 st1, prime w st = Ok (w1, st1).
Proof.
  unfold can_prime, prime. destruct (rs_initialized st); simpl; [eauto|].
  unfold alt_arc4_init. cbv zeta.
  change (random_data_source_fd (set_rs _ st)) with (random_data_source_fd st).
  destruct (negb (random_data_source_fd st =? -1)); simpl; [eauto|].
  destruct (alt_arc4_random_dev_open w) as [w1 fd]. simpl.
  destruct (fd =? -1); simpl; [discriminate|eauto].
Qed.

Lemma prime_abort w st : can_prime w st = false -> prime w st = Fault Aborted.
Proof.
  unfold can_prime, prime. destruct (rs_initialized st); simpl; [discriminate|].
  unfold alt_arc4_init. cbv zeta.
  change (random_data_source_fd (set_rs _ st)) with (random_data_source_fd st).
  destruct (negb (random_data_source_fd st =? -1)); simpl; [discriminate|].
  destruct (alt_arc4_random_dev_open w) as [w1 fd]. simpl.
  destruct (fd =? -1); simpl; [reflexivity|discriminate].
Qed.

Lemma stir_returns w st :
  can_prime w st = true ->
  ∃ w' st', alt_arc4_stir w st = Ok (w', st') ∧ rs_initialized st' = true.
Proof.
  intros Hc. destruct (prime_total w st Hc) as (w1 & st1 & Hp).
  pose proof Hp as Hp'. apply prime_Ok in Hp' as (_ & Hi1 & _).
  destruct (stir_after_prime w w1 st st1 Hp) as (r & _ & _ & Hs).
  eexists _, _. split; [exact Hs|]. exact Hi1.
Qed.

Lemma stir_if_needed_returns w st :
  can_prime w st = true ->
  ∃ w' st', alt_arc4_stir_if_needed w st = Ok (w', st') ∧ rs_initialized st' = true.
Proof.
  intros Hc. unfold alt_arc4_stir_if_needed.
  destruct (stir_needed _ _) eqn:Hn.
  - by apply stir_returns.
  - exists w, st. split; [done|]. unfold stir_needed in Hn.
    apply orb_false_elim in Hn as [Hn _]. apply orb_false_elim in Hn as [_ Hn].
    by apply negb_false_iff in Hn.
Qed.

Lemma random_returns w st :
  can_prime w st = true -> ∃ w' st' v, alt_arc4random w st = Ok (w', st', v).
Proof.
  intros Hc. unfold alt_arc4random.
  destruct (stir_if_needed_returns w (set_count (alt_arc4_count st - 4) st) Hc)
    as (w1 & st1 & -> & _).
  simpl. destruct (alt_arc4_getword (rs st1)). eauto.
Qed.

Lemma buf_loop_returns n : ∀ w st buf,
  rs_initialized st = true -> (n <= length buf)%nat ->
  ∃ w' st' buf', buf_loop n w st buf = Ok (w', st', buf').
Proof.
  induction n as [|n IH]; intros w st buf Hi Hn.
  - by exists w, st, buf.
  - rewrite buf_loop_S. destruct (_ <=? _).
    + destruct (stir_returns w (set_count (alt_arc4_count st - 1) st))
        as (w1 & st1 & -> & Hi1); [unfold can_prime; simpl; by rewrite Hi|].
      cbn [bind]. rewrite bool_decide_true by lia.
      apply IH; [done|]. rewrite length_insert. lia.
    + cbn [bind]. rewrite bool_decide_true by lia.
      apply IH; [done|]. rewrite length_insert. lia.
Qed.

Lemma buf_returns buf n w st :
  can_prime w st = true -> (n <= length buf)%nat ->
  ∃ w' st' buf', alt_arc4random_buf buf n w st = Ok (w', st', buf').
Proof.
  intros Hc Hn. unfold alt_arc4random_buf.
  destruct (stir_if_needed_returns w st Hc) as (w1 & st1 & -> & Hi1).
  cbn [bind]. by apply buf_loop_returns.
Qed.

(** The loop for [n] bytes leaves the buffer alone from index [n] on. *)
Lemma buf_loop_above n : ∀ w st buf w' st' buf' k,
  buf_loop n w st buf = Ok (w', st', buf') -> (n <= k)%nat ->
  buf' !! k = buf !! k.
Proof.
  induction n as [|n IH]; intros w st buf w' st' buf' k H Hk.
  - by apply Ok_triple_inj in H as (_ & _ & <-).
  - rewrite buf_loop_S in H. bind_inv H. destruct a as [w1 st1].
    case_bool_decide; [|discriminate H].
    rewrite (IH _ _ _ _ _ _ k H) by lia. apply list_lookup_insert_ne. lia.
Qed.

Lemma stir_needed_true pid st :
  alt_arc4_stir_pid st ≠ pid ∨ rs_initialized st = false ∨ alt_arc4_count st <= 0 ->
  stir_needed pid st = true.
Proof.
  unfold stir_needed. intros [H|[H|H]].
  - apply Z.eqb_neq in H. rewrite H. simpl. apply orb_true_r.
  - rewrite H. simpl. by rewrite orb_true_r.
  - apply Z.leb_le in H. by rewrite H.
Qed.

(** ** Reseeding before output *)



(** ** Assembling a word *)

Lemma lor_mul_pow2 hi lo k :
  0 <= k -> 0 <= lo < 2 ^ k -> Z.lor (hi * 2 ^ k) lo = hi * 2 ^ k + lo.
Proof.
  intros Hk Hlo.
  assert (Z.land (hi * 2 ^ k) lo = 0) as Hland.
  { apply Z.bits_inj'. intros n Hn. rewrite Z.land_spec, Z.bits_0.
    destruct (Z.ltb_spec n k).
    - by rewrite Z.mul_pow2_bits_low by lia.
    - rewrite <- (Z.mod_small lo (2 ^ k)) by lia.
      rewrite Z.mod_pow2_bits_high by lia. apply andb_false_r. }
  by rewrite <- Z.lxor_lor, <- Z.add_nocarry_lxor.
Qed.

Lemma assemble_big_endian b0 b1 b2 b3 :
  is_u8 b0 -> is_u8 b1 -> is_u8 b2 -> is_u8 b3 ->
  Z.lor (Z.lor (Z.lor (u32 (Z.shiftl b0 24)) (u32 (Z.shiftl b1 16)))
               (u32 (Z.shiftl b2 8))) b3
  = big_endian b0 b1 b2 b3 ∧ is_u32 (big_endian b0 b1 b2 b3).
Proof.
  unfold is_u8, big_endian. intros H0 H1 H2 H3.
  rewrite !Z.shiftl_mul_pow2 by lia.
  rewrite !u32_id by (unfold is_u32; lia).
  rewrite (lor_mul_pow2 b0 (b1 * 2 ^ 16) 24) by lia.
  replace (b0 * 2 ^ 24 + b1 * 2 ^ 16) with ((b0 * 2 ^ 8 + b1) * 2 ^ 16) by lia.
  rewrite (lor_mul_pow2 _ (b2 * 2 ^ 8) 16) by lia.
  replace ((b0 * 2 ^ 8 + b1) * 2 ^ 16 + b2 * 2 ^ 8)
    with ((b0 * 2 ^ 16 + b1 * 2 ^ 8 + b2) * 2 ^ 8) by lia.
  rewrite (lor_mul_pow2 _ b3 8) by lia.
  unfold is_u32. lia.
Qed.

(** C9: on every keystream state, [getbyte] is the extraction step of the
    specification (increment i, si = s[i], add si to j, sj = s[j], swap s[i]
    and s[j], return s[(si + sj) mod 256]), and [getword] returns the four
    successive [getbyte] outputs assembled big-endian, the first byte produced
    being the most significant one, leaving the keystream where the fourth
    call left it. *)
Theorem getword_big_endian (r : alt_arc4_stream) :
  keyed r ->
  alt_arc4_getbyte r = getbyte_spec r ∧
  let p0 := alt_arc4_getbyte r in
  let p1 := alt_arc4_getbyte p0.2 in
  let p2 := alt_arc4_getbyte p1.2 in
  let p3 := alt_arc4_getbyte p2.2 in
  alt_arc4_getword r = (big_endian p0.1 p1.1 p2.1 p3.1, p3.2) ∧
  is_u8 p0.1 ∧ is_u8 p1.1 ∧ is_u8 p2.1 ∧ is_u8 p3.1 ∧
  is_u32 (alt_arc4_getword r).1.
Proof.
  intros Hk. split; [apply getbyte_refines|]. intros p0 p1 p2 p3.
  pose proof (getbyte_is_u8 r Hk) as H0.
  pose proof (getbyte_keyed r Hk) as Hk0. fold p0 in H0, Hk0.
  pose proof (getbyte_is_u8 _ Hk0) as H1.
  pose proof (getbyte_keyed _ Hk0) as Hk1. fold p1 in H1, Hk1.
  pose proof (getbyte_is_u8 _ Hk1) as H2.
  pose proof (getbyte_keyed _ Hk1) as Hk2. fold p2 in H2, Hk2.
  pose proof (getbyte_is_u8 _ Hk2) as H3. fold p3 in H3.
  destruct (assemble_big_endian _ _ _ _ H0 H1 H2 H3) as [Heq Hr].
  rewrite getword_unfold. cbv zeta. fold p0 p1 p2 p3. rewrite Heq.
  split; [reflexivity|]. auto 6.
Qed.

Lemma getword_big_endian_witness :
  let r := {| as_i := 0; as_j := 0; as_s := seqZ 0 256 |} in
  keyed r ∧ alt_arc4_getword r = (big_endian 2 5 7 13, discard 4 r).
Proof.
  intros r.
  assert (keyed r) as Hk.
  { split; [|unfold table_ok; reflexivity].
    unfold stream_ok, is_u8. simpl. split; [lia|]. split; [lia|]. reflexivity. }
  split; [exact Hk|].
  destruct (getword_big_endian r Hk) as (_ & -> & _). vm_compute. reflexivity.
Defined.

(** ** The lower bound of the uniform reduction *)

Lemma min_fallback_small U :
  2 <= U <= 0x80000000 ->
  u32 (u32 (0xffffffff - u32 (U * 2)) + 1) mod U = 0x100000000 mod U.
Proof.
  intros HU. destruct (Z.eq_dec U 0x80000000) as [->|Hne]; [reflexivity|].
  rewrite (u32_id (U * 2)) by (unfold is_u32; lia).
  rewrite (u32_id (0xffffffff - U * 2)) by (unfold is_u32; lia).
  rewrite u32_id by (unfold is_u32; lia).
  replace (0xffffffff - U * 2 + 1) with (0x100000000 + (-2) * U) by lia.
  apply Z.mod_add. lia.
Qed.

Lemma min_fallback_large U :
  0x80000000 < U < 0x100000000 ->
  u32 (1 + u32_not U) = 0x100000000 - U ∧
  0x100000000 - U = 0x100000000 mod U.
Proof.
  intros HU. rewrite u32_not_spec by (unfold is_u32; lia).
  rewrite u32_id by (unfold is_u32; lia). split; [lia|].
  replace 0x100000000 with (0x100000000 - U + 1 * U) at 2 by lia.
  rewrite Z.mod_add by lia. symmetry. apply Z.mod_small. lia.
Qed.

Lemma uniform_min_spec wide U :
  2 <= U < 0x100000000 -> uniform_min wide U = 0x100000000 mod U.
Proof.
  intros HU. unfold uniform_min. destruct wide.
  - apply u32_id. pose proof (Z.mod_pos_bound 0x100000000 U). unfold is_u32. lia.
  - destruct (Z.ltb_spec 0x80000000 U).
    + destruct (min_fallback_large U) as [-> ?]; [lia|done].
    + apply min_fallback_small. lia.
Qed.

(** C8: in the 32-bit fallback of uniform, for 2 <= U <= 2^31 the value of
    ((0xFFFFFFFF - 2*U) + 1) mod U computed modulo 2^32 is 2^32 mod U, and for
    2^31 < U < 2^32 the value of 1 + ~U is 2^32 - U, which is 2^32 mod U; so
    the fallback computes [min = 2^32 mod U] for every U >= 2. *)
Theorem uniform_min_fallback (U : Z) :
  2 <= U < 0x100000000 ->
  uniform_min false U = 0x100000000 mod U ∧
  (U <= 0x80000000 ->
   uniform_min false U = u32 (u32 (0xffffffff - u32 (U * 2)) + 1) mod U ∧
   u32 (u32 (0xffffffff - u32 (U * 2)) + 1) mod U = 0x100000000 mod U) ∧
  (0x80000000 < U ->
   uniform_min false U = u32 (1 + u32_not U) ∧
   u32 (1 + u32_not U) = 0x100000000 - U ∧
   0x100000000 - U = 0x100000000 mod U).
Proof.
  intros HU. split; [by apply uniform_min_spec|]. split.
  - intros Hle. split; [|apply min_fallback_small; lia].
    unfold uniform_min. destruct (Z.ltb_spec 0x80000000 U); [lia|reflexivity].
  - intros Hgt. split; [|apply min_fallback_large; lia].
    unfold uniform_min. destruct (Z.ltb_spec 0x80000000 U); [reflexivity|lia].
Qed.

Lemma uniform_min_fallback_witness :
  uniform_min false 3 = 1 ∧
  uniform_min false 0x80000000 = 0 ∧
  uniform_min false 0x80000001 = 0x7fffffff ∧
  uniform_min false 0xffffffff = 1.
Proof.
  split; [|split; [|split]].
  - rewrite (proj1 (uniform_min_fallback 3 ltac:(lia))). reflexivity.
  - rewrite (proj1 (uniform_min_fallback 0x80000000 ltac:(lia))). reflexivity.
  - rewrite (proj1 (uniform_min_fallback 0x80000001 ltac:(lia))). reflexivity.
  - rewrite (proj1 (uniform_min_fallback 0xffffffff ltac:(lia))). reflexivity.
Defined.

(** ** The rejection loop *)

(** The loop returns the first draw that is not below [min], provided it
    comes within the allotted rounds. *)
Lemma uniform_loop_spec fuel min : ∀ w st w' st' r,
  uniform_loop fuel min w st = Ok (w', st', r) ↔
  ∃ k, (k < fuel)%nat ∧ nth_draw k w st = Ok (w', st', r) ∧ min <= r ∧
       ∀ j, (j < k)%nat ->
            ∃ wj stj rj, nth_draw j w st = Ok (wj, stj, rj) ∧ rj < min.
Proof.
  induction fuel as [|fuel IH]; intros w st w' st' r; simpl.
  - split; [discriminate|]. intros (k & Hk & _). lia.
  - split.
    + intros H. bind_inv H. destruct a as [[w1 st1] r1].
      destruct (Z.leb_spec min r1) as [Hle|Hlt].
      * exists 0%nat. simpl. rewrite Hrun, H.
        split; [lia|]. split; [done|].
        apply Ok_triple_inj in H as (_ & _ & <-). split; [done|]. intros j Hj. lia.
      * apply IH in H as (k & Hk & Hd & Hr & Hbelow).
        exists (S k). simpl. rewrite Hrun. simpl.
        split; [lia|]. split; [done|]. split; [done|].
        intros [|j] Hj; simpl; rewrite Hrun; simpl; [eauto|].
        apply Hbelow. lia.
    + intros ([|k] & Hk & Hd & Hr & Hbelow); simpl in Hd.
      * rewrite Hd. simpl. by destruct (Z.leb_spec min r); [|lia].
      * bind_inv Hd. destruct a as [[w1 st1] r1]. rewrite Hrun. simpl.
        destruct (Hbelow 0%nat ltac:(lia)) as (w0 & st0 & r0 & H0 & Hlt).
        simpl in H0. rewrite Hrun in H0. apply Ok_triple_inj in H0 as (_ & _ & <-).
        destruct (Z.leb_spec min r1); [lia|].
        apply IH. exists k. split; [lia|]. split; [done|]. split; [done|].
        intros j Hj. specialize (Hbelow (S j) ltac:(lia)). simpl in Hbelow.
        by rewrite Hrun in Hbelow.
Qed.

(** C7: uniform(U) returns 0 without drawing when U < 2; whenever it returns
    for U >= 1 its value lies in [0, U); and for U >= 2 it returns exactly
    when one of the words drawn within the allotted rounds is at least
    2^32 mod U, and then its value is r mod U for the first such word r
    (on both arms of the build-time switch). *)
Theorem uniform_result (wide : bool) (fuel : nat) (U : Z) (w : World) (st : State) :
  is_u32 U ->
  (U < 2 -> alt_arc4random_uniform wide fuel U w st = Ok (w, st, 0)) ∧
  (∀ w' st' v,
     alt_arc4random_uniform wide fuel U w st = Ok (w', st', v) ->
     1 <= U -> 0 <= v < U) ∧
  (2 <= U ->
   ∀ w' st' v,
     alt_arc4random_uniform wide fuel U w st = Ok (w', st', v) ↔
     ∃ k r,
       (k < fuel)%nat ∧ nth_draw k w st = Ok (w', st', r) ∧
       0x100000000 mod U <= r ∧
       (∀ j, (j < k)%nat ->
             ∃ wj stj rj, nth_draw j w st = Ok (wj, stj, rj)
                          ∧ rj < 0x100000000 mod U) ∧
       v = r mod U).
Proof.
  intros HU. unfold is_u32 in HU. split; [|split].
  - intros Hlt. unfold alt_arc4random_uniform.
    by destruct (Z.ltb_spec U 2); [|lia].
  - intros w' st' v H H1. unfold alt_arc4random_uniform in H.
    destruct (Z.ltb_spec U 2).
    + apply Ok_triple_inj in H as (_ & _ & <-). lia.
    + bind_inv H. destruct a as [[w1 st1] r].
      apply Ok_triple_inj in H as (_ & _ & <-). apply Z.mod_pos_bound. lia.
  - intros H2 w' st' v. unfold alt_arc4random_uniform.
    destruct (Z.ltb_spec U 2) as [?|_]; [lia|]. cbv zeta.
    rewrite uniform_min_spec by lia. split.
    + intros H. bind_inv H. destruct a as [[w1 st1] r].
      apply Ok_triple_inj in H as (<- & <- & <-).
      apply uniform_loop_spec in Hrun as (k & Hk & Hd & Hr & Hbelow).
      exists k, r. auto.
    + intros (k & r & Hk & Hd & Hr & Hbelow & ->).
      assert (uniform_loop fuel (0x100000000 mod U) w st = Ok (w', st', r)) as ->.
      { apply uniform_loop_spec. exists k. auto. }
      reflexivity.
Qed.

Lemma uniform_result_witness :
  alt_arc4random_uniform true 1 0 mock fresh = Ok (mock, fresh, 0) ∧
  alt_arc4random_uniform false 1 1 mock fresh = Ok (mock, fresh, 0) ∧
  ∃ w' st' v,
    alt_arc4random_uniform false 4 1000 mock fresh = Ok (w', st', v) ∧ 0 <= v < 1000.
Proof.
  split; [|split].
  - assert (is_u32 0) as H0 by (unfold is_u32; lia).
    apply (proj1 (uniform_result true 1 0 mock fresh H0)). lia.
  - assert (is_u32 1) as H1 by (unfold is_u32; lia).
    apply (proj1 (uniform_result false 1 1 mock fresh H1)). lia.
  - destruct (alt_arc4random_uniform false 4 1000 mock fresh)
      as [[[w' st'] v]| |] eqn:E; [|vm_compute in E; discriminate E..].
    exists w', st', v. split; [reflexivity|].
    assert (is_u32 1000) as HU by (unfold is_u32; lia).
    apply (proj1 (proj2 (uniform_result false 4 1000 mock fresh HU)) _ _ _ E). lia.
Defined.

(** * Further properties of the code *)

(** ** The extraction step can be taken back *)

Lemma lookup_exchange (l : list Z) (a b k : nat) :
  (a < length l)%nat -> (b < length l)%nat ->
  <[b := l !!! a]> (<[a := l !!! b]> l) !! k
  = if decide (k = b) then Some (l !!! a)
    else if decide (k = a) then Some (l !!! b) else l !! k.
Proof.
  intros Ha Hb. destruct (decide (k = b)) as [->|Hkb].
  - apply list_lookup_insert_eq. by rewrite length_insert.
  - rewrite list_lookup_insert_ne by done.
    destruct (decide (k = a)) as [->|Hka].
    + by apply list_lookup_insert_eq.
    + by apply list_lookup_insert_ne.
Qed.

Lemma insert_exchange_back (l : list Z) (a b : nat) :
  (a < length l)%nat -> (b < length l)%nat ->
  let l' := <[b := l !!! a]> (<[a := l !!! b]> l) in
  <[b := l' !!! a]> (<[a := l' !!! b]> l') = l.
Proof.
  intros Ha Hb l'.
  assert (length l' = length l) as Hl' by (subst l'; by rewrite !length_insert).
  assert (l' !!! b = l !!! a) as Eb.
  { apply list_lookup_total_correct. subst l'. rewrite lookup_exchange by done.
    by rewrite decide_True. }
  assert (l' !!! a = if decide (a = b) then l !!! a else l !!! b) as Ea.
  { apply list_lookup_total_correct. subst l'. rewrite lookup_exchange by done.
    destruct (decide (a = b)); [done|]. by rewrite decide_True. }
  apply list_eq. intros k. rewrite lookup_exchange by lia. rewrite Ea, Eb.
  destruct (decide (k = b)) as [->|Hkb].
  - destruct (decide (a = b)) as [->|_];
      symmetry; by apply list_lookup_lookup_total_lt.
  - destruct (decide (k = a)) as [->|Hka].
    + symmetry. by apply list_lookup_lookup_total_lt.
    + subst l'. rewrite lookup_exchange by done.
      by rewrite !decide_False.
Qed.

Lemma swap_swap s a b :
  (Z.to_nat a < length s)%nat -> (Z.to_nat b < length s)%nat ->
  swap (swap s a b) a b = s.
Proof. intros Ha Hb. unfold swap, wr, rd. by apply insert_exchange_back. Qed.

Lemma rd_swap_r s a b :
  (Z.to_nat a < length s)%nat -> (Z.to_nat b < length s)%nat ->
  rd (swap s a b) b = rd s a.
Proof.
  intros Ha Hb. unfold swap. rewrite rd_wr_eq; [done|]. by rewrite length_wr.
Qed.

Lemma getbyte_undo_getbyte r :
  stream_ok r -> getbyte_undo (alt_arc4_getbyte r).2 = r.
Proof.
  intros (Hi & Hj & Hl). rewrite getbyte_refines. unfold getbyte_spec, getbyte_undo.
  cbn [snd as_i as_j as_s].
  set (i' := (as_i r + 1) mod 256). set (si := rd (as_s r) i').
  set (j' := (as_j r + si) mod 256).
  assert (is_u8 i') as Hi' by apply u8_is_u8.
  assert (is_u8 j') as Hj' by apply u8_is_u8.
  unfold is_u8 in *.
  rewrite swap_swap by lia. fold si.
  destruct r as [i j s]. cbn [as_i as_j as_s] in *. f_equal.
  - subst i'. unfold u8. rewrite Zminus_mod_idemp_l.
    replace (i + 1 - 1) with i by lia. apply Z.mod_small. lia.
  - subst j'. unfold u8. rewrite Zminus_mod_idemp_l.
    replace (j + si - si) with j by lia. apply Z.mod_small. lia.
Qed.

(** ** Keystream states never merge *)

Lemma discard_undo k : ∀ r,
  stream_ok r -> Nat.iter k getbyte_undo (discard k r) = r.
Proof.
  induction k as [|k IH]; intros r Hr.
  - by rewrite discard_0.
  - rewrite discard_S, Nat.iter_succ, IH by (by apply getbyte_stream_ok).
    by apply getbyte_undo_getbyte.
Qed.

(** X9: two keystream states never merge: the extraction step, and any number of
    them, is one-to-one on streams with 8-bit indices and a full table, and
    [getbyte_undo] takes a step back. *)
Theorem keystream_steps_injective (k : nat) (r1 r2 : alt_arc4_stream) :
  stream_ok r1 -> stream_ok r2 ->
  discard k r1 = discard k r2 ->
  r1 = r2 ∧ getbyte_undo (alt_arc4_getbyte r1).2 = r1.
Proof.
  intros H1 H2 E. split; [|by apply getbyte_undo_getbyte].
  by rewrite <- (discard_undo k r1 H1), E, discard_undo.
Qed.

Lemma keystream_steps_injective_witness :
  let r := {| as_i := 0; as_j := 0; as_s := seqZ 0 256 |} in
  getbyte_undo (alt_arc4_getbyte r).2 = r.
Proof.
  intros r.
  assert (stream_ok r) as Hr.
  { unfold stream_ok, is_u8. simpl. split; [lia|]. split; [lia|]. reflexivity. }
  exact (proj2 (keystream_steps_injective 3 r r Hr Hr eq_refl)).
Defined.

(** ** What mixing in does to the indices *)

Lemma addrandom_steps_index dat datlen ns : ∀ r r',
  for_each (addrandom_step dat datlen) ns r = Ok r' ->
  as_i r' = u8 (as_i r + Z.of_nat (length ns)) ∨ (ns = [] ∧ r' = r).
Proof.
  induction ns as [|n ns IH]; intros r r' H.
  - right. rewrite for_each_nil in H. by apply Ok_inj in H as <-.
  - left. rewrite for_each_cons in H. bind_inv H.
    pose proof (addrandom_step_Ok _ _ _ _ _ Hrun) as (Hi & _).
    apply IH in H as [H|[-> ->]].
    + rewrite H, Hi. unfold u8. rewrite Zplus_mod_idemp_l. f_equal.
      simpl length. lia.
    + rewrite Hi. simpl. f_equal.
Qed.

Lemma addrandom_indices dat datlen r r' :
  is_u8 (as_i r) ->
  alt_arc4_addrandom dat datlen r = Ok r' ->
  as_i r' = u8 (as_i r - 1) ∧ as_j r' = as_i r'.
Proof.
  intros Hi H. unfold alt_arc4_addrandom in H. bind_inv H.
  apply Ok_inj in H as <-. cbn [as_i as_j]. split; [|reflexivity].
  apply addrandom_steps_index in Hrun as [->|[Hnil _]].
  - rewrite length_seqZ. simpl as_i. unfold u8. rewrite Zplus_mod_idemp_l.
    change (Z.of_nat (Z.to_nat 256)) with 256.
    rewrite <- (Z.mod_add (as_i r - 1) 1 256) by lia. f_equal; lia.
  - pose proof (length_seqZ 0 256) as Hl. rewrite Hnil in Hl. discriminate Hl.
Qed.

Lemma addrandom_Permutation dat datlen r r' :
  stream_ok r -> alt_arc4_addrandom dat datlen r = Ok r' -> as_s r' ≡ₚ as_s r.
Proof.
  intros (Hi & Hj & Hl) H. unfold alt_arc4_addrandom in H. bind_inv H.
  apply Ok_inj in H as <-. cbn [as_s].
  eapply (for_each_inv (λ x, length (as_s x) = 256%nat ∧ as_s x ≡ₚ as_s r)) in Hrun.
  - apply Hrun.
  - intros n x x' [Hlx Hpx] Hstep.
    apply addrandom_step_Ok in Hstep as (Hi' & Hj' & Hs').
    rewrite Hs', length_swap. split; [done|]. rewrite <- Hpx.
    pose proof (u8_is_u8 (as_i x + 1)) as Hu. rewrite <- Hi' in Hu.
    unfold is_u8 in *. apply swap_Permutation; lia.
  - by split.
Qed.

(** X8: folding caller bytes into an initialized generator touches the keystream
    only: no system call, the counter, the recorded process id and the handle
    stay as they were; the table is permuted, [i] ends one below where it
    was and [j] equals [i]. *)
Theorem addrandom_effect (dat : list Z) (datlen : Z) (w w' : World)
  (st st' : State) :
  rs_initialized st = true -> stream_ok (rs st) ->
  alt_arc4random_addrandom dat datlen w st = Ok (w', st') ->
  w' = w ∧ st' = set_rs (rs st') st ∧
  as_s (rs st') ≡ₚ as_s (rs st) ∧
  as_i (rs st') = u8 (as_i (rs st) - 1) ∧ as_j (rs st') = as_i (rs st').
Proof.
  intros Hi Hs H. unfold alt_arc4random_addrandom in H. rewrite Hi in H.
  cbn [negb bind] in H. bind_inv H. apply Ok_pair_inj in H as [<- <-].
  split; [done|]. split; [done|]. cbn [rs set_rs]. split.
  - eapply addrandom_Permutation; eassumption.
  - eapply addrandom_indices; [apply Hs|eassumption].
Qed.

Lemma addrandom_effect_witness :
  let st := final_state (run [Random] mock fresh []) in
  let w := final_world (run [Random] mock fresh []) in
  ∃ st', alt_arc4random_addrandom [1; 2; 3] 3 w st = Ok (w, st') ∧
         as_j (rs st') = as_i (rs st').
Proof.
  intros st w.
  assert (rs_initialized st = true) as Hi by (vm_compute; reflexivity).
  assert (stream_ok (rs st)) as Hs.
  { unfold stream_ok, is_u8. split; [vm_compute; split; [discriminate|reflexivity]|].
    split; [vm_compute; split; [discriminate|reflexivity]|]. vm_compute. reflexivity. }
  destruct (alt_arc4random_addrandom [1; 2; 3] 3 w st) as [[w' st']| |] eqn:E;
    [|vm_compute in E; discriminate E..].
  destruct (addrandom_effect _ _ _ _ _ _ Hi Hs E) as (-> & _ & _ & _ & Hj).
  exists st'. by split.
Defined.

(** ** Output without a reseed *)

Lemma discard_add a : ∀ b r, discard (a + b) r = discard b (discard a r).
Proof.
  induction a as [|a IH]; intros b r.
  - by rewrite discard_0.
  - change (S a + b)%nat with (S (a + b)). by rewrite !discard_S, IH.
Qed.

Lemma keystream_S r k : keystream r (S k) = keystream (alt_arc4_getbyte r).2 k.
Proof. unfold keystream. by rewrite discard_S. Qed.

Lemma keystream_0 r : keystream r 0 = (alt_arc4_getbyte r).1.
Proof. unfold keystream. by rewrite discard_0. Qed.

Lemma set_rs_set_count_step st c r1 r2 c' :
  set_rs r2 (set_count c' (set_rs r1 (set_count c st))) = set_rs r2 (set_count c' st).
Proof. reflexivity. Qed.

Lemma buf_loop_no_reseed n : ∀ w st buf,
  (n <= length buf)%nat -> Z.of_nat n < alt_arc4_count st ->
  buf_loop n w st buf
  = Ok (w,
        if n is O then st
        else set_rs (discard n (rs st)) (set_count (alt_arc4_count st - Z.of_nat n) st),
        reverse (keystream (rs st) <$> seq 0 n) ++ drop n buf).
Proof.
  induction n as [|n IH]; intros w st buf Hlen Hc.
  - reflexivity.
  - rewrite buf_loop_S.
    destruct (Z.leb_spec (alt_arc4_count st - 1) 0) as [?|_]; [lia|].
    cbn [bind]. rewrite bool_decide_true by lia.
    rewrite IH; [|rewrite length_insert; lia|simpl; lia].
    f_equal. f_equal; [f_equal|].
    + destruct n as [|n].
      * by rewrite discard_S, discard_0.
      * cbn [rs set_rs alt_arc4_count set_count]. rewrite set_rs_set_count_step.
        rewrite discard_S. f_equal. f_equal. lia.
    + cbn [rs set_rs seq].
      rewrite fmap_cons, reverse_cons, <- fmap_S_seq, <- list_fmap_compose.
      rewrite <- app_assoc.
      f_equal. rewrite drop_insert_ge, Nat.sub_diag by lia.
      destruct (lookup_lt_is_Some_2 buf n ltac:(lia)) as [x Hx].
      rewrite (drop_S buf x n Hx). simpl. by rewrite keystream_0.
Qed.

Lemma set_rs_set_count_same st :
  set_rs (discard 0 (rs st)) (set_count (alt_arc4_count st - Z.of_nat 0) st) = st.
Proof.
  rewrite discard_0. destruct st as [? ? ? c ?]. unfold set_rs, set_count. simpl.
  f_equal. lia.
Qed.

(** X10: a fill of [n] bytes by a primed generator of the same process with more
    than [n] bytes left on its counter makes no system call and no reseed:
    it takes [n] off the counter, advances the keystream by [n] steps, and
    stores the successive keystream bytes from index [n - 1] down to 0,
    leaving the rest of the buffer alone. *)
Theorem buf_without_reseed (buf : list Z) (n : nat) (w : World) (st : State) :
  rs_initialized st = true ->
  alt_arc4_stir_pid st = os_getpid w ->
  Z.of_nat n < alt_arc4_count st ->
  (n <= length buf)%nat ->
  alt_arc4random_buf buf n w st
  = Ok (w,
        set_rs (discard n (rs st)) (set_count (alt_arc4_count st - Z.of_nat n) st),
        reverse (keystream (rs st) <$> seq 0 n) ++ drop n buf).
Proof.
  intros Hi Hp Hc Hn. unfold alt_arc4random_buf, alt_arc4_stir_if_needed.
  rewrite stir_needed_false by (auto; lia). cbn [bind].
  rewrite buf_loop_no_reseed by done. destruct n as [|n]; [|reflexivity].
  by rewrite set_rs_set_count_same.
Qed.

Lemma buf_without_reseed_witness :
  let st := final_state (run [Random] mock fresh []) in
  let w := final_world (run [Random] mock fresh []) in
  final_out (alt_arc4random_buf [0; 0; 0; 9] 3 w st)
  = [keystream (rs st) 2; keystream (rs st) 1; keystream (rs st) 0; 9].
Proof.
  intros st w. rewrite (buf_without_reseed [0; 0; 0; 9] 3 w st).
  - reflexivity.
  - vm_compute. reflexivity.
  - vm_compute. reflexivity.
  - vm_compute. reflexivity.
  - simpl. lia.
Defined.

Lemma keyed_discard k r : keyed r -> keyed (discard k r).
Proof. intros [? ?]. split; [by apply discard_stream_ok|by apply discard_table_ok]. Qed.

Lemma keystream_discard a b r : keystream (discard a r) b = keystream r (a + b).
Proof. unfold keystream. by rewrite discard_add. Qed.

Lemma keystream_is_u8 r k : keyed r -> is_u8 (keystream r k).
Proof. intros Hk. apply getbyte_is_u8. by apply keyed_discard. Qed.

Lemma getword_keystream r :
  keyed r ->
  (alt_arc4_getword r).1
  = big_endian (keystream r 0) (keystream r 1) (keystream r 2) (keystream r 3).
Proof.
  intros Hk. rewrite getword_unfold. cbv zeta. cbn [fst].
  pose proof (keystream_is_u8 r 0 Hk) as H0.
  pose proof (keystream_is_u8 r 1 Hk) as H1.
  pose proof (keystream_is_u8 r 2 Hk) as H2.
  pose proof (keystream_is_u8 r 3 Hk) as H3.
  unfold keystream in *. rewrite !discard_S, !discard_0 in *.
  by apply assemble_big_endian.
Qed.

Lemma nth_draw_no_reseed k : ∀ w st,
  rs_initialized st = true ->
  alt_arc4_stir_pid st = os_getpid w ->
  4 * Z.of_nat (S k) < alt_arc4_count st ->
  nth_draw k w st
  = Ok (w,
        set_rs (discard (4 * S k) (rs st))
          (set_count (alt_arc4_count st - 4 * Z.of_nat (S k)) st),
        (alt_arc4_getword (discard (4 * k) (rs st))).1).
Proof.
  induction k as [|k IH]; intros w st Hi Hp Hc.
  - cbn [nth_draw]. rewrite random_no_reseed by (auto; lia).
    rewrite getword_stream. reflexivity.
  - cbn [nth_draw]. rewrite random_no_reseed by (auto; lia). cbn [bind].
    rewrite IH; [|done|done|cbn [alt_arc4_count set_rs set_count]; lia].
    cbn [rs set_rs alt_arc4_count set_count]. rewrite getword_stream.
    rewrite <- !discard_add. rewrite set_rs_set_count_step.
    assert (4 + 4 * S k = 4 * S (S k))%nat as -> by lia.
    assert (4 + 4 * k = 4 * S k)%nat as -> by lia.
    replace (alt_arc4_count st - 4 - 4 * Z.of_nat (S k))
      with (alt_arc4_count st - 4 * Z.of_nat (S (S k))) by lia.
    reflexivity.
Qed.

(** X13: successive calls of random() by a primed generator of the same process,
    while more than 4 bytes stay on the counter, make no system call: each
    takes 4 off the counter, and the [k]-th word is the keystream bytes
    4k .. 4k+3 assembled big-endian. *)
Theorem random_words_without_reseed (k : nat) (w : World) (st : State) :
  rs_initialized st = true ->
  keyed (rs st) ->
  alt_arc4_stir_pid st = os_getpid w ->
  4 * Z.of_nat (S k) < alt_arc4_count st ->
  nth_draw k w st
  = Ok (w,
        set_rs (discard (4 * S k) (rs st))
          (set_count (alt_arc4_count st - 4 * Z.of_nat (S k)) st),
        big_endian (keystream (rs st) (4 * k)) (keystream (rs st) (4 * k + 1))
                   (keystream (rs st) (4 * k + 2)) (keystream (rs st) (4 * k + 3))).
Proof.
  intros Hi Hk Hp Hc. rewrite nth_draw_no_reseed by done.
  rewrite getword_keystream by (by apply keyed_discard).
  rewrite !keystream_discard. by rewrite Nat.add_0_r.
Qed.

Lemma keyed_after_random :
  keyed (rs (final_state (run [Random] mock fresh []))).
Proof.
  destruct (run [Random] mock fresh []) as [[[w' st'] out]| |] eqn:E;
    [|vm_compute in E; discriminate E..].
  assert (rs_initialized st' = true) as Hi.
  { change st' with (final_state (Ok (w', st', out))). rewrite <- E.
    vm_compute. reflexivity. }
  apply run_inv in E as (Hs & Ht & _); [|apply inv_fresh].
  split; [exact Hs|by apply Ht].
Qed.

Lemma random_words_without_reseed_witness :
  let st := final_state (run [Random] mock fresh []) in
  let w := final_world (run [Random] mock fresh []) in
  ∃ st' v, nth_draw 2 w st = Ok (w, st', v) ∧ alt_arc4_count st' = 1599988.
Proof.
  intros st w. eexists _, _.
  rewrite (random_words_without_reseed 2 w st).
  - split; [reflexivity|]. vm_compute. reflexivity.
  - vm_compute. reflexivity.
  - apply keyed_after_random.
  - vm_compute. reflexivity.
  - vm_compute. reflexivity.
Defined.

(** X14: random() and a 4-byte buf() draw the same four keystream bytes and leave
    the generator in the same state: the word is the big-endian reading of
    the four bytes, the buffer holds them in reverse order of production. *)
Theorem random_matches_buf (buf : list Z) (w : World) (st : State) :
  rs_initialized st = true ->
  keyed (rs st) ->
  alt_arc4_stir_pid st = os_getpid w ->
  4 < alt_arc4_count st ->
  (4 <= length buf)%nat ->
  ∃ b0 b1 b2 b3 st',
    alt_arc4random w st = Ok (w, st', big_endian b0 b1 b2 b3) ∧
    alt_arc4random_buf buf 4 w st = Ok (w, st', [b3; b2; b1; b0] ++ drop 4 buf).
Proof.
  intros Hi Hk Hp Hc Hn.
  exists (keystream (rs st) 0), (keystream (rs st) 1),
         (keystream (rs st) 2), (keystream (rs st) 3).
  eexists. split.
  - rewrite random_no_reseed by done. rewrite getword_keystream by done.
    rewrite getword_stream. reflexivity.
  - unfold alt_arc4random_buf, alt_arc4_stir_if_needed.
    rewrite stir_needed_false by (auto; lia). cbn [bind].
    rewrite buf_loop_no_reseed by (simpl; lia). reflexivity.
Qed.

Lemma random_matches_buf_witness :
  let st := final_state (run [Random] mock fresh []) in
  let w := final_world (run [Random] mock fresh []) in
  ∃ b0 b1 b2 b3 st',
    alt_arc4random w st = Ok (w, st', big_endian b0 b1 b2 b3) ∧
    alt_arc4random_buf [0; 0; 0; 0] 4 w st = Ok (w, st', [b3; b2; b1; b0]).
Proof.
  intros st w.
  destruct (random_matches_buf [0; 0; 0; 0] w st)
    as (b0 & b1 & b2 & b3 & st' & H1 & H2).
  - vm_compute. reflexivity.
  - apply keyed_after_random.
  - vm_compute. reflexivity.
  - vm_compute. reflexivity.
  - simpl. lia.
  - exists b0, b1, b2, b3, st'. split; [exact H1|exact H2].
Defined.

(** ** Choosing the device *)

Lemma dev_open_loop_first ds w :
  dev_open_loop ds w
  = match head (filter (λ d, w_access w d = true) ds) with
    | Some d => os_open w d
    | None => (w, -1)
    end.
Proof.
  induction ds as [|d ds IH]; [reflexivity|]. simpl. rewrite filter_cons.
  destruct (w_access w d) eqn:Hd.
  - by rewrite decide_True.
  - by rewrite decide_False.
Qed.

(** X1: the device list is tried in its order and [open] is called at most once,
    on the first device that access() accepts: when that open fails the
    result is -1 although a later device might have opened, and when access()
    accepts no device the result is -1 without any call of [open]. *)
Theorem device_choice (w : World) :
  match first_accessible w with
  | Some d =>
      d ∈ devices ∧ w_access w d = true ∧
      alt_arc4_random_dev_open w = os_open w d ∧
      (alt_arc4_random_dev_open w).2 = w_open w d ∧
      w_trace (alt_arc4_random_dev_open w).1 = w_trace w ++ [EvOpen d (w_open w d)]
  | None =>
      (∀ d, d ∈ devices -> w_access w d = false) ∧
      alt_arc4_random_dev_open w = (w, -1)
  end.
Proof.
  unfold alt_arc4_random_dev_open, first_accessible.
  rewrite dev_open_loop_first.
  destruct (head _) as [d|] eqn:Hh.
  - assert (d ∈ filter (λ d, w_access w d = true) devices) as Hin.
    { destruct (filter _ devices) as [|x l]; simplify_eq/=. left. }
    apply list_elem_of_filter in Hin as [Hacc Hd].
    split; [exact Hd|]. split; [exact Hacc|]. split; [reflexivity|].
    unfold os_open. destruct (Z.eqb_spec (w_open w d) (-1)) as [->|_]; by split.
  - split; [|reflexivity]. intros d Hd.
    destruct (w_access w d) eqn:Hacc; [|reflexivity].
    assert (d ∈ filter (λ d, w_access w d = true) devices) as Hin
      by (by apply list_elem_of_filter).
    destruct (filter _ devices); [by apply elem_of_nil in Hin|discriminate Hh].
Qed.

(** ** Aborting *)

Lemma stir_abort w st : can_prime w st = false -> alt_arc4_stir w st = Fault Aborted.
Proof. intros H. by rewrite stir_unfold, prime_abort. Qed.

Lemma can_prime_false w st :
  can_prime w st = false -> rs_initialized st = false.
Proof. unfold can_prime. by destruct (rs_initialized st). Qed.

Lemma stir_if_needed_abort w st :
  can_prime w st = false -> alt_arc4_stir_if_needed w st = Fault Aborted.
Proof.
  intros H. pose proof (can_prime_false _ _ H) as Hi.
  unfold alt_arc4_stir_if_needed.
  rewrite stir_needed_true by (right; left; exact Hi).
  by apply stir_abort.
Qed.

Lemma for_each_addrandom_not_aborted dat datlen ns : ∀ r,
  for_each (addrandom_step dat datlen) ns r ≠ Fault Aborted.
Proof.
  induction ns as [|n ns IH]; intros r; [by rewrite for_each_nil|].
  rewrite for_each_cons. unfold addrandom_step at 1.
  destruct (datlen =? 0); [done|]. destruct (dat !! _); [|done].
  cbn [bind]. apply IH.
Qed.

Lemma addrandom_not_aborted dat datlen r :
  alt_arc4_addrandom dat datlen r ≠ Fault Aborted.
Proof.
  unfold alt_arc4_addrandom.
  pose proof (for_each_addrandom_not_aborted dat datlen (seqZ 0 256)
    {| as_i := u8 (as_i r - 1); as_j := as_j r; as_s := as_s r |}) as H.
  by destruct (for_each _ _ _) as [?|[]|].
Qed.

Lemma stir_not_aborted w st :
  can_prime w st = true -> alt_arc4_stir w st ≠ Fault Aborted.
Proof. intros H. by destruct (stir_returns w st H) as (? & ? & -> & _). Qed.

Lemma buf_loop_not_aborted n : ∀ w st buf,
  rs_initialized st = true -> buf_loop n w st buf ≠ Fault Aborted.
Proof.
  induction n as [|n IH]; intros w st buf Hi; [done|].
  rewrite buf_loop_S. destruct (_ <=? _).
  - destruct (stir_returns w (set_count (alt_arc4_count st - 1) st))
      as (w1 & st1 & -> & Hi1); [unfold can_prime; simpl; by rewrite Hi|].
    cbn [bind]. case_bool_decide; [by apply IH|done].
  - cbn [bind]. case_bool_decide; [by apply IH|done].
Qed.

Lemma uniform_loop_not_aborted fuel min : ∀ w st,
  can_prime w st = true -> uniform_loop fuel min w st ≠ Fault Aborted.
Proof.
  induction fuel as [|fuel IH]; intros w st Hc; [done|]. simpl.
  destruct (random_returns w st Hc) as (w1 & st1 & v & E). rewrite E. cbn [bind].
  destruct (min <=? v); [done|]. apply IH.
  apply random_initialized in E. unfold can_prime. by rewrite E.
Qed.

(** Which calls abort, in terms of [can_prime]. *)
Lemma do_call_abort (c : call) (w : World) (st : State) :
  (can_prime w st = false -> needs_entropy c = true ->
   do_call c w st = Fault Aborted) ∧
  (can_prime w st = true -> do_call c w st ≠ Fault Aborted) ∧
  (needs_entropy c = false -> do_call c w st ≠ Fault Aborted).
Proof.
  split; [|split].
  - intros Hc Hn. pose proof (can_prime_false _ _ Hc) as Hi.
    destruct c as [|dat datlen| |buf n|wide fuel u| |f]; simpl in Hn;
      try discriminate Hn.
    + simpl. unfold alt_arc4random_stir. by rewrite stir_abort.
    + simpl. unfold alt_arc4random_addrandom. rewrite Hi. simpl.
      by rewrite stir_abort.
    + simpl. unfold alt_arc4random.
      by rewrite stir_if_needed_abort.
    + simpl. unfold alt_arc4random_buf.
      by rewrite stir_if_needed_abort.
    + apply andb_true_iff in Hn as [Hu Hf]. apply Z.leb_le in Hu.
      destruct fuel as [|fuel]; [discriminate|].
      simpl. unfold alt_arc4random_uniform.
      destruct (Z.ltb_spec u 2); [lia|]. cbv zeta. simpl.
      unfold alt_arc4random. by rewrite stir_if_needed_abort.
  - intros Hc.
    destruct c as [|dat datlen| |buf n|wide fuel u| |f]; simpl.
    + unfold alt_arc4random_stir.
      by destruct (stir_returns w st Hc) as (? & ? & -> & _).
    + unfold alt_arc4random_addrandom.
      assert (∀ w1 st1,
        (bnd r <~ alt_arc4_addrandom dat datlen (rs st1) in Ok (w1, set_rs r st1, []))
        ≠ (Fault Aborted : result (World * State * list Z))) as Hmix.
      { intros w1 st1. pose proof (addrandom_not_aborted dat datlen (rs st1)).
        by destruct (alt_arc4_addrandom _ _ _) as [?|[]|]. }
      destruct (negb _).
      * destruct (stir_returns w st Hc) as (w1 & st1 & -> & _). cbn [bind].
        specialize (Hmix w1 st1).
        by destruct (alt_arc4_addrandom _ _ _) as [?|[]|].
      * cbn [bind]. specialize (Hmix w st).
        by destruct (alt_arc4_addrandom _ _ _) as [?|[]|].
    + by destruct (random_returns w st Hc) as (? & ? & ? & ->).
    + unfold alt_arc4random_buf.
      destruct (stir_if_needed_returns w st Hc) as (w1 & st1 & -> & Hi1).
      cbn [bind]. by apply buf_loop_not_aborted.
    + unfold alt_arc4random_uniform. destruct (_ <? _); [done|]. cbv zeta.
      pose proof (uniform_loop_not_aborted fuel (uniform_min wide u) w st Hc).
      by destruct (uniform_loop _ _ _ _) as [[[? ?] ?]|[]|].
    + by destruct (alt_arc4random_close w st) as [[? ?] ?].
    + done.
  - intros Hn. destruct c as [|dat datlen| |buf n|wide fuel u| |f];
      simpl in Hn; try discriminate Hn; simpl.
    + unfold alt_arc4random_uniform. destruct (Z.ltb_spec u 2); [done|].
      cbv zeta. apply andb_false_iff in Hn as [Hu|Hf]; [apply Z.leb_gt in Hu; lia|].
      apply negb_false_iff, Nat.eqb_eq in Hf. by subst fuel.
    + by destruct (alt_arc4random_close w st) as [[? ?] ?].
    + done.
Qed.

Lemma dev_open_result w :
  (alt_arc4_random_dev_open w).2
  = match first_accessible w with
    | Some d => w_open w d
    | None => -1
    end.
Proof.
  unfold alt_arc4_random_dev_open, first_accessible. rewrite dev_open_loop_first.
  destruct (head _) as [d|]; [|reflexivity].
  unfold os_open. by destruct (Z.eqb_spec (w_open w d) (-1)) as [->|_].
Qed.

Lemma no_device_spec w : no_device w ↔ (alt_arc4_random_dev_open w).2 = -1.
Proof. rewrite dev_open_result. unfold no_device. by destruct (first_accessible w). Qed.

Lemma can_prime_spec w st :
  can_prime w st = false ↔
  rs_initialized st = false ∧ random_data_source_fd st = -1 ∧ no_device w.
Proof.
  rewrite no_device_spec. unfold can_prime.
  destruct (rs_initialized st); cbn [orb]; [by split; [|intros [? _]]|].
  destruct (Z.eqb_spec (random_data_source_fd st) (-1)) as [Hfd|Hfd]; cbn [negb orb].
  - destruct (Z.eqb_spec (alt_arc4_random_dev_open w).2 (-1)) as [Hd|Hd]; cbn [negb].
    + by split.
    + split; [discriminate|]. by intros (_ & _ & ?).
  - split; [discriminate|]. by intros (_ & ? & _).
Qed.

(** X2: abort() is reached exactly when a call that needs entropy finds the
    generator unprimed and without a handle while [alt_arc4_random_dev_open]
    comes back without a descriptor, that is, access() accepts no device or
    open() fails on the first device it accepts (a later device that could be
    opened is not tried). *)
Theorem abort_iff_no_device (c : call) (w : World) (st : State) :
  (do_call c w st = Fault Aborted ↔
   needs_entropy c = true ∧ rs_initialized st = false ∧
   random_data_source_fd st = -1 ∧ no_device w) ∧
  (no_device w ↔ (alt_arc4_random_dev_open w).2 = -1).
Proof.
  split; [|apply no_device_spec]. rewrite <- can_prime_spec.
  pose proof (do_call_abort c w st) as (Hab & Hok & Hne).
  split.
  - intros H. destruct (needs_entropy c); [|by destruct Hne].
    destruct (can_prime w st); [by destruct Hok|done].
  - intros [Hn Hc]. by apply Hab.
Qed.

Lemma abort_iff_no_device_witness :
  do_call Random (chroot mock) fresh = Fault Aborted ∧
  (w_open arandom_broken "/dev/urandom" = 3 ∧
   do_call Random arandom_broken fresh = Fault Aborted) ∧
  do_call Random mock fresh ≠ Fault Aborted ∧
  do_call (Uniform true 5 1) (chroot mock) fresh ≠ Fault Aborted.
Proof.
  split; [|split; [split|split]].
  - apply (proj1 (abort_iff_no_device Random (chroot mock) fresh)).
    by repeat split.
  - reflexivity.
  - apply (proj1 (abort_iff_no_device Random arandom_broken fresh)).
    by repeat split.
  - intros H. apply (proj1 (abort_iff_no_device Random mock fresh)) in H
      as (_ & _ & _ & H). vm_compute in H. discriminate H.
  - intros H.
    apply (proj1 (abort_iff_no_device (Uniform true 5 1) (chroot mock) fresh)) in H
      as (H & _). discriminate H.
Defined.

(** ** Closing twice *)

Lemma not_elem_of_filter_ne (fd : Z) (l : list Z) : fd ∉ filter (λ x, x ≠ fd) l.
Proof. intros H. apply list_elem_of_filter in H as [H _]. by apply H. Qed.

(** X7: a close() that succeeded has released the descriptor and left the
    keystream, the counter and the recorded process id alone; the stored
    handle is "none", so a second close() returns -1 without calling close
    again: no descriptor is ever closed twice. *)
Theorem close_twice (w w1 : World) (st st1 : State) :
  alt_arc4random_close w st = (w1, st1, 0) ->
  alt_arc4random_close w1 st1 = (w1, st1, -1) ∧
  st1 = set_fd (-1) st ∧
  (random_data_source_fd st ∉ w_fds w1) ∧
  w_trace w1 = w_trace w ++ [EvClose (random_data_source_fd st) 0].
Proof.
  unfold alt_arc4random_close at 1.
  destruct (Z.eqb_spec (random_data_source_fd st) (-1)) as [Hfd|Hfd]; simpl;
    [intros H; by simplify_eq|].
  unfold os_close. destruct (_ && _); simpl; [|intros H; by simplify_eq].
  intros H. apply pair_equal_spec in H as [H _].
  apply pair_equal_spec in H as [<- <-].
  split; [reflexivity|]. split; [reflexivity|]. split; [|reflexivity].
  simpl. apply not_elem_of_filter_ne.
Qed.

Lemma close_twice_witness :
  let r := run [Random] mock fresh [] in
  ∃ w1 st1,
    alt_arc4random_close (final_world r) (final_state r) = (w1, st1, 0) ∧
    alt_arc4random_close w1 st1 = (w1, st1, -1).
Proof.
  intros r.
  destruct (alt_arc4random_close (final_world r) (final_state r))
    as [[w1 st1] ret] eqn:E.
  assert (ret = 0) as ->.
  { change ret with (w1, st1, ret).2. rewrite <- E. vm_compute. reflexivity. }
  exists w1, st1. split; [reflexivity|].
  exact (proj1 (close_twice _ _ _ _ E)).
Defined.

(** ** The bounds of the buffer *)

Lemma buf_loop_length n : ∀ w st buf w' st' buf',
  buf_loop n w st buf = Ok (w', st', buf') ->
  (n <= length buf)%nat ∧ length buf' = length buf.
Proof.
  induction n as [|n IH]; intros w st buf w' st' buf' H.
  - apply Ok_triple_inj in H as (_ & _ & <-). split; [lia|done].
  - rewrite buf_loop_S in H. bind_inv H. destruct a as [w1 st1].
    case_bool_decide; [|discriminate H].
    apply IH in H as [_ H]. rewrite length_insert in H. split; [lia|done].
Qed.

Lemma buf_loop_overrun n w st buf :
  rs_initialized st = true -> (length buf <= n)%nat ->
  buf_loop (S n) w st buf = Fault OutOfBounds.
Proof.
  intros Hi Hn. rewrite buf_loop_S. destruct (_ <=? _).
  - destruct (stir_returns w (set_count (alt_arc4_count st - 1) st))
      as (w1 & st1 & -> & Hi1); [unfold can_prime; simpl; by rewrite Hi|].
    cbn [bind]. by rewrite bool_decide_false by lia.
  - cbn [bind]. by rewrite bool_decide_false by lia.
Qed.

(** X12: buf() writes the [n] cells below index [n] and nothing else: given a
    buffer of at least [n] bytes it returns, whatever reseeds happen on the
    way, a buffer of the same length whose cells from [n] on are untouched;
    given a shorter buffer it stores past the end, which the model reports
    as a fault. *)
Theorem buf_bounds (buf : list Z) (n : nat) (w : World) (st : State) :
  can_prime w st = true ->
  ((n <= length buf)%nat ->
   ∃ w' st' buf',
     alt_arc4random_buf buf n w st = Ok (w', st', buf') ∧
     length buf' = length buf ∧ drop n buf' = drop n buf) ∧
  ((length buf < n)%nat ->
   alt_arc4random_buf buf n w st = Fault OutOfBounds).
Proof.
  intros Hc. split.
  - intros Hn. destruct (buf_returns buf n w st Hc Hn) as (w' & st' & buf' & E).
    exists w', st', buf'. split; [exact E|].
    unfold alt_arc4random_buf in E. bind_inv E. destruct a as [w1 st1].
    pose proof (buf_loop_length _ _ _ _ _ _ _ E) as [_ Hl]. split; [exact Hl|].
    apply list_eq. intros k. rewrite !lookup_drop.
    apply (buf_loop_above _ _ _ _ _ _ _ _ E). lia.
  - intros Hn. unfold alt_arc4random_buf.
    destruct (stir_if_needed_returns w st Hc) as (w1 & st1 & -> & Hi1).
    cbn [bind]. destruct n as [|n]; [lia|]. apply buf_loop_overrun; [done|lia].
Qed.

Lemma buf_bounds_witness :
  (∃ w' st' buf',
     alt_arc4random_buf [7; 7; 7; 7; 7] 3 mock fresh = Ok (w', st', buf') ∧
     drop 3 buf' = [7; 7]) ∧
  alt_arc4random_buf [7; 7] 3 mock fresh = Fault OutOfBounds.
Proof.
  assert (can_prime mock fresh = true) as Hc by (vm_compute; reflexivity).
  destruct (buf_bounds [7; 7; 7; 7; 7] 3 mock fresh Hc) as [H _].
  destruct (buf_bounds [7; 7] 3 mock fresh Hc) as [_ H'].
  split.
  - destruct H as (w' & st' & buf' & E & _ & Hd); [simpl; lia|].
    exists w', st', buf'. split; [exact E|exact Hd].
  - apply H'. simpl. lia.
Defined.

(** ** How many words the uniform reduction accepts *)

(** X16: the lower bound [min] of uniform() is below its upper bound and below
    2^31, so more than half of all 32-bit words are accepted at each round,
    and the number of accepted words, 2^32 - min, is a multiple of the upper
    bound: every residue has the same number of accepted words.  When the
    upper bound divides 2^32 no word is rejected. *)
Theorem uniform_min_bounds (wide : bool) (U : Z) :
  2 <= U < 0x100000000 ->
  0 <= uniform_min wide U < U ∧
  uniform_min wide U < 0x80000000 ∧
  (0x100000000 - uniform_min wide U) mod U = 0 ∧
  (0x100000000 mod U = 0 -> uniform_min wide U = 0).
Proof.
  intros HU. rewrite uniform_min_spec by done.
  pose proof (Z.mod_pos_bound 0x100000000 U ltac:(lia)) as Hm.
  split; [exact Hm|]. split; [|split; [|done]].
  - destruct (Z.le_gt_cases U 0x80000000) as [Hle|Hgt]; [lia|].
    destruct (min_fallback_large U ltac:(lia)) as [_ <-]. lia.
  - rewrite Zminus_mod_idemp_r, Z.sub_diag. apply Z.mod_0_l. lia.
Qed.

Lemma uniform_min_bounds_witness :
  uniform_min false 1000 < 1000 ∧ uniform_min true 65536 = 0.
Proof.
  split.
  - apply (uniform_min_bounds false 1000). lia.
  - apply (uniform_min_bounds true 65536); [lia|reflexivity].
Defined.

(** ** A reseed on a handle that is not open *)

(** X6: the result of [safe_read] is not looked at.  When the stored handle is
    not open, as after close(), a reseed of a primed generator still goes
    through: nothing is taken from the device, and what is mixed in is the
    128 bytes that [rnd] held before the call. *)
Theorem reseed_without_handle (w : World) (st : State) :
  rs_initialized st = true ->
  fd_open w (random_data_source_fd st) = false ->
  ∃ r,
    alt_arc4_addrandom (w_stack w <$> seq 0 128) 128 (rs st) = Ok r ∧
    alt_arc4_stir w st
    = Ok (log (EvRead (random_data_source_fd st) 128 0) w,
          set_count 1600000 (set_rs (discard 256 r) st)) ∧
    w_pos (log (EvRead (random_data_source_fd st) 128 0) w) = w_pos w.
Proof.
  intros Hi Hfd.
  assert (prime w st = Ok (w, st)) as Hp by (unfold prime; by rewrite Hi).
  destruct (stir_after_prime w w st st Hp) as (r & _ & Hr & Hs).
  cbv zeta in Hr, Hs. unfold safe_read in Hr, Hs. rewrite Hfd in Hr, Hs.
  exists r. split; [exact Hr|]. split; [exact Hs|reflexivity].
Qed.

Lemma reseed_without_handle_witness :
  let r := run [Random; Close] mock fresh [] in
  ∃ st', alt_arc4_stir (final_world r) (final_state r)
         = Ok (log (EvRead (-1) 128 0) (final_world r), st').
Proof.
  intros r.
  assert (rs_initialized (final_state r) = true) as Hi by (vm_compute; reflexivity).
  assert (fd_open (final_world r) (random_data_source_fd (final_state r)) = false)
    as Hfd by (vm_compute; reflexivity).
  destruct (reseed_without_handle _ _ Hi Hfd) as (k & _ & Hs & _).
  eexists. rewrite Hs. f_equal.
Defined.

(** ** The range of what is handed out *)

Lemma stir_if_needed_keyed w st w' st' :
  core st -> alt_arc4_stir_if_needed w st = Ok (w', st') -> keyed (rs st').
Proof.
  intros Hc H. apply stir_if_needed_Ok in H as ([Hs Ht] & Hi & _); [|exact Hc].
  split; [exact Hs|by apply Ht].
Qed.

Lemma buf_loop_bytes n : ∀ w st buf w' st' buf' k,
  keyed (rs st) ->
  buf_loop n w st buf = Ok (w', st', buf') -> (k < n)%nat ->
  ∃ b, buf' !! k = Some b ∧ is_u8 b.
Proof.
  induction n as [|n IH]; intros w st buf w' st' buf' k Hk H Hlt; [lia|].
  rewrite buf_loop_S in H. bind_inv H. destruct a as [w1 st1].
  case_bool_decide; [|discriminate H].
  assert (keyed (rs st1)) as Hk1.
  { destruct (_ <=? _).
    - apply stir_Ok in Hrun as ([Hs Ht] & Hi & _).
      + split; [exact Hs|by apply Ht].
      + destruct Hk as [Hs Ht]. split; [exact Hs|by intros _].
    - by apply Ok_pair_inj in Hrun as [_ <-]. }
  destruct (decide (k = n)) as [->|Hne].
  - exists (alt_arc4_getbyte (rs st1)).1. split; [|by apply getbyte_is_u8].
    rewrite (buf_loop_above _ _ _ _ _ _ _ n H) by lia.
    by apply list_lookup_insert_eq.
  - apply (IH _ _ _ _ _ _ k) in H; [exact H| |lia].
    cbn [rs set_rs]. by apply getbyte_keyed.
Qed.

(** X15: after any sequence of public calls, what the generator hands out next is
    in range: the word of random() is a 32-bit value and every byte that
    buf() stores is below 256. *)
Theorem outputs_in_range (cs : list call) (w w1 : World) (st1 : State)
  (out : list Z) :
  run cs w fresh [] = Ok (w1, st1, out) ->
  (∀ w' st' v, alt_arc4random w1 st1 = Ok (w', st', v) -> is_u32 v) ∧
  (∀ buf n w' st' buf' k,
     alt_arc4random_buf buf n w1 st1 = Ok (w', st', buf') -> (k < n)%nat ->
     ∃ b, buf' !! k = Some b ∧ is_u8 b).
Proof.
  intros Hrun. apply run_inv in Hrun as (Hs & Ht & Hn); [|apply inv_fresh].
  assert (core st1) as Hc by (by split).
  split.
  - intros w' st' v H. unfold alt_arc4random in H. bind_inv H.
    destruct a as [w2 st2].
    apply stir_if_needed_keyed in Hrun as Hk; [|exact Hc].
    destruct (alt_arc4_getword (rs st2)) as [val r] eqn:Hw.
    apply Ok_triple_inj in H as (_ & _ & <-).
    change val with (val, r).1. rewrite <- Hw, getword_keystream by done.
    apply assemble_big_endian; by apply keystream_is_u8.
  - intros buf n w' st' buf' k H Hk. unfold alt_arc4random_buf in H. bind_inv H.
    destruct a as [w2 st2].
    apply stir_if_needed_keyed in Hrun as Hk2; [|exact Hc].
    by apply (buf_loop_bytes _ _ _ _ _ _ _ _ Hk2 H).
Qed.

Lemma outputs_in_range_witness :
  ∃ w1 st1 out w' st' v,
    run sample_calls mock fresh [] = Ok (w1, st1, out) ∧
    alt_arc4random w1 st1 = Ok (w', st', v) ∧ is_u32 v.
Proof.
  destruct (run sample_calls mock fresh []) as [[[w1 st1] out]| |] eqn:E;
    [|vm_compute in E; discriminate E..].
  assert (rs_initialized st1 = true) as Hi.
  { change st1 with (final_state (Ok (w1, st1, out))). rewrite <- E.
    vm_compute. reflexivity. }
  destruct (random_returns w1 st1) as (w' & st' & v & Hr).
  { unfold can_prime. by rewrite Hi. }
  exists w1, st1, out, w', st', v. split; [reflexivity|]. split; [exact Hr|].
  exact (proj1 (outputs_in_range _ _ _ _ _ E) _ _ _ Hr).
Defined.

(** ** The handle, as long as it is not closed *)

Lemma opens_log e w :
  opens (log e w) = (opens w + (if is_open e then 1 else 0))%nat.
Proof.
  unfold opens, log. simpl. rewrite filter_app, length_app. f_equal.
  rewrite filter_cons, filter_nil. by destruct (is_open e).
Qed.

Lemma prime_fresh_handle w st w1 st1 :
  rs_initialized st = false -> random_data_source_fd st = -1 ->
  prime w st = Ok (w1, st1) ->
  rs_initialized st1 = true ∧
  fd_open w1 (random_data_source_fd st1) = true ∧
  opens w1 = S (opens w) ∧ reads w1 = reads w ∧ w_pos w1 = w_pos w.
Proof.
  intros Hi Hfd. unfold prime, alt_arc4_init. rewrite Hi. cbn [negb]. cbv zeta.
  change (random_data_source_fd (set_rs _ st)) with (random_data_source_fd st).
  rewrite Hfd. cbn [Z.eqb negb]. unfold alt_arc4_random_dev_open.
  rewrite dev_open_loop_first. destruct (head _) as [d|]; [|discriminate].
  unfold os_open. destruct (Z.eqb_spec (w_open w d) (-1)) as [E|E].
  - rewrite Z.eqb_refl. discriminate.
  - apply Z.eqb_neq in E. rewrite E. cbn [bind]. intros H.
    apply Ok_pair_inj in H as [<- <-]. split; [reflexivity|].
    split; [|split; [|split]].
    + unfold fd_open. apply bool_decide_eq_true. cbn. left.
    + rewrite opens_log. cbn [is_open]. unfold opens. cbn. lia.
    + rewrite reads_log. cbn [is_read]. unfold reads. cbn. lia.
    + reflexivity.
Qed.

Lemma handle_inv_ext w0 w st st' :
  rs_initialized st' = rs_initialized st ->
  random_data_source_fd st' = random_data_source_fd st ->
  handle_inv w0 w st -> handle_inv w0 w st'.
Proof. unfold handle_inv. by intros -> ->. Qed.

Lemma stir_handle w0 w st w' st' :
  handle_inv w0 w st ->
  alt_arc4_stir w st = Ok (w', st') ->
  handle_inv w0 w' st' ∧ rs_initialized st' = true.
Proof.
  intros [Hh Hpos] H.
  apply stir_inversion in H as (w1 & st1 & r & Hp & _ & -> & ->). cbv zeta.
  assert (rs_initialized st1 = true ∧
          fd_open w1 (random_data_source_fd st1) = true ∧
          opens w1 = S (opens w0) ∧ (reads w0 <= reads w1)%nat ∧
          (w_pos w1 + 128 * reads w0 = w_pos w0 + 128 * reads w1)%nat)
    as (Hi1 & Ho1 & Hop1 & Hr1 & Hpos1).
  { destruct (rs_initialized st) eqn:Hi.
    - unfold prime in Hp. rewrite Hi in Hp. apply Ok_pair_inj in Hp as [<- <-].
      destruct Hh as (? & ? & ?). repeat split; auto; lia.
    - destruct Hh as (Hfd & Hop & Hr).
      apply prime_fresh_handle in Hp as (? & ? & Hop1 & Hr1 & Hp1); [|done..].
      repeat split; auto; lia. }
  split; [|exact Hi1]. unfold handle_inv. cbn [rs_initialized set_count set_rs
    random_data_source_fd]. rewrite Hi1. unfold safe_read. rewrite Ho1. cbn [fst].
  rewrite opens_log, reads_log. cbn. unfold fd_open, opens, reads in *. cbn.
  repeat split; try lia. exact Ho1.
Qed.

Lemma stir_if_needed_handle w0 w st w' st' :
  handle_inv w0 w st ->
  alt_arc4_stir_if_needed w st = Ok (w', st') ->
  handle_inv w0 w' st' ∧ rs_initialized st' = true.
Proof.
  intros Hh H. unfold alt_arc4_stir_if_needed in H.
  destruct (stir_needed _ _) eqn:Hn.
  - eapply stir_handle; [|exact H]. by eapply handle_inv_ext; [| |exact Hh].
  - apply Ok_pair_inj in H as [<- <-]. split; [exact Hh|].
    unfold stir_needed in Hn.
    apply orb_false_elim in Hn as [Hn _]. apply orb_false_elim in Hn as [_ Hn].
    by apply negb_false_iff in Hn.
Qed.

Lemma random_handle w0 w st w' st' v :
  handle_inv w0 w st ->
  alt_arc4random w st = Ok (w', st', v) -> handle_inv w0 w' st'.
Proof.
  intros Hh H. unfold alt_arc4random in H. bind_inv H. destruct a as [w1 st1].
  destruct (alt_arc4_getword _) as [val r].
  apply Ok_triple_inj in H as (<- & <- & _).
  apply stir_if_needed_handle with (w0 := w0) in Hrun as [Hh1 _].
  - by eapply handle_inv_ext; [| |exact Hh1].
  - by eapply handle_inv_ext; [| |exact Hh].
Qed.

Lemma buf_loop_handle n : ∀ w0 w st buf w' st' buf',
  handle_inv w0 w st ->
  buf_loop n w st buf = Ok (w', st', buf') -> handle_inv w0 w' st'.
Proof.
  induction n as [|n IH]; intros w0 w st buf w' st' buf' Hh H.
  - by apply Ok_triple_inj in H as (<- & <- & _).
  - rewrite buf_loop_S in H. bind_inv H. destruct a as [w1 st1].
    case_bool_decide; [|discriminate H].
    eapply IH; [|exact H].
    assert (handle_inv w0 w1 st1) as Hh1.
    { destruct (_ <=? _).
      - apply stir_handle with (w0 := w0) in Hrun as [Hh1 _]; [done|].
        by eapply handle_inv_ext; [| |exact Hh].
      - apply Ok_pair_inj in Hrun as [<- <-].
        by eapply handle_inv_ext; [| |exact Hh]. }
    by eapply handle_inv_ext; [| |exact Hh1].
Qed.

Lemma uniform_loop_handle fuel min : ∀ w0 w st w' st' r,
  handle_inv w0 w st ->
  uniform_loop fuel min w st = Ok (w', st', r) -> handle_inv w0 w' st'.
Proof.
  induction fuel as [|fuel IH]; intros w0 w st w' st' r Hh H; simpl in H.
  - discriminate.
  - bind_inv H. destruct a as [[w1 st1] r1].
    apply random_handle with (w0 := w0) in Hrun; [|exact Hh].
    destruct (min <=? r1).
    + by apply Ok_triple_inj in H as (<- & <- & _).
    + eapply IH; eassumption.
Qed.

Lemma do_call_handle c w0 w st w' st' out :
  keeps_handle c -> handle_inv w0 w st ->
  do_call c w st = Ok (w', st', out) -> handle_inv w0 w' st'.
Proof.
  intros Hk Hh H.
  destruct c as [|dat datlen| |buf n|wide fuel u| |f]; simpl in H.
  - bind_inv H. destruct a as [w1 st1]. apply Ok_triple_inj in H as (<- & <- & _).
    by apply stir_handle with (w0 := w0) in Hrun as [? _].
  - bind_inv H. destruct a as [w1 st1]. apply Ok_triple_inj in H as (<- & <- & _).
    unfold alt_arc4random_addrandom in Hrun. bind_inv Hrun. destruct a as [w2 st2].
    bind_inv Hrun. apply Ok_pair_inj in Hrun as [<- <-].
    assert (handle_inv w0 w2 st2) as Hh2.
    { destruct (negb _).
      - by apply stir_handle with (w0 := w0) in Hrun0 as [? _].
      - by apply Ok_pair_inj in Hrun0 as [<- <-]. }
    by eapply handle_inv_ext; [| |exact Hh2].
  - bind_inv H. destruct a as [[w1 st1] v]. apply Ok_triple_inj in H as (<- & <- & _).
    by eapply random_handle.
  - unfold alt_arc4random_buf in H. bind_inv H. destruct a as [w1 st1].
    apply stir_if_needed_handle with (w0 := w0) in Hrun as [Hh1 _]; [|exact Hh].
    by eapply buf_loop_handle.
  - bind_inv H. destruct a as [[w1 st1] v]. apply Ok_triple_inj in H as (<- & <- & _).
    unfold alt_arc4random_uniform in Hrun. destruct (u <? 2).
    + by apply Ok_triple_inj in Hrun as (<- & <- & _).
    + bind_inv Hrun. destruct a as [[w2 st2] r].
      apply Ok_triple_inj in Hrun as (<- & <- & _).
      by eapply uniform_loop_handle.
  - destruct Hk.
  - apply Ok_triple_inj in H as (<- & <- & _). simpl in Hk.
    destruct (Hk w) as (Hf & Hp & Ht). unfold handle_inv, fd_open, opens, reads in *.
    by rewrite Hf, Hp, Ht.
Qed.

Lemma run_handle cs : ∀ w0 w st last w' st' out,
  Forall keeps_handle cs -> handle_inv w0 w st ->
  run cs w st last = Ok (w', st', out) -> handle_inv w0 w' st'.
Proof.
  induction cs as [|c cs IH]; intros w0 w st last w' st' out Hk Hh H; simpl in H.
  - by apply Ok_triple_inj in H as (<- & <- & _).
  - bind_inv H. destruct a as [[w1 st1] out1].
    apply Forall_cons in Hk as [Hc Hk].
    eapply IH; [exact Hk| |exact H]. eapply do_call_handle; eassumption.
Qed.

Lemma handle_inv_fresh w : handle_inv w w fresh.
Proof. unfold handle_inv. simpl. repeat split; lia. Qed.

(** X4: as long as close() is not called, a primed generator holds an open
    descriptor and the device has been opened exactly once since the start,
    however many reseeds, forks or chroots happened; an unprimed generator
    has made no system call of its own. *)
Theorem handle_stays_open (cs : list call) (w w' : World) (st' : State)
  (out : list Z) :
  Forall keeps_handle cs ->
  run cs w fresh [] = Ok (w', st', out) ->
  (rs_initialized st' = true ->
   fd_open w' (random_data_source_fd st') = true ∧
   opens w' = S (opens w) ∧ (reads w < reads w')%nat) ∧
  (rs_initialized st' = false ->
   random_data_source_fd st' = -1 ∧ opens w' = opens w ∧ reads w' = reads w).
Proof.
  intros Hk H. apply run_handle with (w0 := w) in H as [Hh _];
    [|exact Hk|apply handle_inv_fresh].
  destruct (rs_initialized st'); split; intros E; try discriminate E; exact Hh.
Qed.

(** X5: as long as close() is not called, every reseed takes exactly 128 bytes
    from the device: the device's read position has advanced by 128 times the
    number of reads made. *)
Theorem reseeds_consume_128_bytes (cs : list call) (w w' : World) (st' : State)
  (out : list Z) :
  Forall keeps_handle cs ->
  run cs w fresh [] = Ok (w', st', out) ->
  (reads w <= reads w')%nat ∧
  w_pos w' = (w_pos w + 128 * (reads w' - reads w))%nat.
Proof.
  intros Hk H. apply run_handle with (w0 := w) in H as [Hh Hpos];
    [|exact Hk|apply handle_inv_fresh].
  assert (reads w <= reads w')%nat as Hle.
  { destruct (rs_initialized st'); destruct Hh as (_ & _ & Hr); lia. }
  split; [exact Hle|lia].
Qed.

Lemma fork_chroot_calls_keep_handle : Forall keeps_handle fork_chroot_calls.
Proof. repeat constructor; intros w; by repeat split. Qed.

Lemma handle_stays_open_witness :
  ∃ w' st' out,
    run fork_chroot_calls mock fresh [] = Ok (w', st', out) ∧
    fd_open w' (random_data_source_fd st') = true ∧ opens w' = 1%nat.
Proof.
  destruct (run fork_chroot_calls mock fresh []) as [[[w' st'] out]| |] eqn:E;
    [|vm_compute in E; discriminate E..].
  assert (rs_initialized st' = true) as Hi.
  { change st' with (final_state (Ok (w', st', out))). rewrite <- E.
    vm_compute. reflexivity. }
  destruct (handle_stays_open _ _ _ _ _ fork_chroot_calls_keep_handle E) as [H _].
  destruct (H Hi) as (Ho & Hop & _).
  exists w', st', out. split; [reflexivity|]. split; [exact Ho|exact Hop].
Defined.

Lemma reseeds_consume_128_bytes_witness :
  ∃ w' st' out,
    run fork_chroot_calls mock fresh [] = Ok (w', st', out) ∧
    w_pos w' = (128 * reads w')%nat.
Proof.
  destruct (run fork_chroot_calls mock fresh []) as [[[w' st'] out]| |] eqn:E;
    [|vm_compute in E; discriminate E..].
  destruct (reseeds_consume_128_bytes _ _ _ _ _ fork_chroot_calls_keep_handle E)
    as [Hle Hpos].
  exists w', st', out. split; [reflexivity|].
  rewrite Hpos. change (reads mock) with 0%nat. change (w_pos mock) with 0%nat. lia.
Defined.

(** ** Reseeding after chroot *)

(** X3: the handle is what makes a reseed possible once the device paths are
    out of reach: after chroot() a primed generator with its handle open
    reseeds from the next 128 bytes of the device, whereas a generator that
    was never primed aborts. *)
Theorem reseed_after_chroot (w : World) (st : State) :
  (rs_initialized st = true ->
   fd_open w (random_data_source_fd st) = true ->
   ∃ r w',
     alt_arc4_addrandom (w_entropy w <$> seq (w_pos w) 128) 128 (rs st) = Ok r ∧
     alt_arc4_stir (chroot w) st
     = Ok (w', set_count 1600000 (set_rs (discard 256 r) st)) ∧
     w_pos w' = (w_pos w + 128)%nat) ∧
  (rs_initialized st = false -> random_data_source_fd st = -1 ->
   alt_arc4_stir (chroot w) st = Fault Aborted).
Proof.
  split.
  - intros Hi Ho.
    assert (prime (chroot w) st = Ok (chroot w, st)) as Hp
      by (unfold prime; by rewrite Hi).
    destruct (stir_after_prime _ _ _ _ Hp) as (r & _ & Hr & Hs).
    cbv zeta in Hr, Hs. unfold safe_read in Hr, Hs.
    change (fd_open (chroot w) (random_data_source_fd st))
      with (fd_open w (random_data_source_fd st)) in Hr, Hs.
    rewrite Ho in Hr, Hs. cbn [fst snd] in Hr, Hs.
    rewrite drop_ge, app_nil_r in Hr by (rewrite length_map, length_seq; lia).
    eexists r, _. split; [exact Hr|]. split; [exact Hs|reflexivity].
  - intros Hi Hfd. rewrite stir_unfold, prime_abort; [reflexivity|].
    unfold can_prime. rewrite Hi, Hfd. reflexivity.
Qed.

Lemma reseed_after_chroot_witness :
  let r := run [Random] mock fresh [] in
  (∃ w' st', alt_arc4_stir (chroot (final_world r)) (final_state r) = Ok (w', st')
             ∧ w_pos w' = 256%nat) ∧
  alt_arc4_stir (chroot mock) fresh = Fault Aborted.
Proof.
  intros r. split.
  - destruct (proj1 (reseed_after_chroot (final_world r) (final_state r)))
      as (k & w' & _ & Hs & Hpos); [vm_compute; reflexivity..|].
    eexists w', _. split; [exact Hs|]. rewrite Hpos. vm_compute. reflexivity.
  - apply (proj2 (reseed_after_chroot mock fresh)); reflexivity.
Defined.

(** ** A fill that uses up the counter *)




(** ** The counter *)

(** X17: between two public calls the counter lies in [0, 1600000], the indices
    are 8-bit values and the table has its 256 cells, primed or not. *)
Theorem counter_bounds (cs : list call) (w w' : World) (st' : State)
  (out : list Z) :
  run cs w fresh [] = Ok (w', st', out) ->
  0 <= alt_arc4_count st' <= 1600000 ∧
  is_u8 (as_i (rs st')) ∧ is_u8 (as_j (rs st')) ∧
  length (as_s (rs st')) = 256%nat.
Proof.
  intros H. apply run_inv in H as ((Hi & Hj & Hl) & _ & Hc); [|apply inv_fresh].
  auto.
Qed.

Lemma counter_bounds_witness :
  ∃ w' st' out,
    run sample_calls mock fresh [] = Ok (w', st', out) ∧
    0 <= alt_arc4_count st' <= 1600000.
Proof.
  destruct (run sample_calls mock fresh []) as [[[w' st'] out]| |] eqn:E;
    [|vm_compute in E; discriminate E..].
  exists w', st', out. split; [reflexivity|].
  exact (proj1 (counter_bounds _ _ _ _ _ E)).
Defined.

(** ** The reseed, step by step *)









